(** * CacheDumper: decoding of TCO texture-cache files

    A shallow embedding of [src/main.cpp] and the properties of its decode
    pipeline: the bounds-checked header reads, the per-layout conversion
    loops of [ProcessOneFile], the block-codec bridge [DecompressBC] and
    the static partition of the file list in [main].

    Conventions.
    - Bytes are [Init.Byte.byte]; a buffer is a [list byte].
    - [uint32] values are [Z] with the wrap-around written out ([wrap32]).
    - [float] is IEEE-754 binary32, computed with the Standard Library's
      executable [SpecFloat] operations at precision 24.
    - A pointer into a buffer is the byte offset from the buffer's start.
    - Behaviour the C++ standard leaves undefined (a load past the end of
      the payload, a store past the end of the allocation, the value of a
      [bool] whose byte is neither 0 nor 1) is an explicit outcome of the
      model, never a value. *)

From Stdlib Require Import ZArith Lia Bool String SpecFloat.
From coqutil Require Import Byte Word.LittleEndianList.
From stdpp Require Import base list strings pretty.

Local Open Scope Z_scope.

(** ** Fixed-width integers *)

Module Int.

Definition wrap32 (z : Z) : Z := z mod 2 ^ 32.

(** [int(x)] for a [uint32] [x], as the two's-complement targets do it. *)
Definition to_int32 (z : Z) : Z := (z + 2 ^ 31) mod 2 ^ 32 - 2 ^ 31.

Lemma wrap32_range z : 0 <= wrap32 z < 2 ^ 32.
Proof. unfold wrap32. apply Z.mod_pos_bound. reflexivity. Qed.

Lemma wrap32_small z : 0 <= z < 2 ^ 32 -> wrap32 z = z.
Proof. intros H. unfold wrap32. now apply Z.mod_small. Qed.

Lemma wrap32_le z : 0 <= z -> wrap32 z <= z.
Proof. intros H. unfold wrap32. apply Z.mod_le; lia. Qed.

End Int.
Export Int.

(** ** Little-endian loads from a buffer *)

Module Mem.

(** The [n] bytes at offset [off], when all of them lie inside the buffer. *)
Definition bytes_at (buf : list byte) (off n : nat) : option (list byte) :=
  if decide (off + n <= length buf)%nat then Some (take n (drop off buf)) else None.

Definition load (buf : list byte) (off n : nat) : option Z :=
  le_combine <$> bytes_at buf off n.

Definition load_u8 (buf : list byte) (off : nat) : option Z := load buf off 1.
Definition load_u16 (buf : list byte) (off : nat) : option Z := load buf off 2.
Definition load_u32 (buf : list byte) (off : nat) : option Z := load buf off 4.

Lemma bytes_at_Some buf off n :
  (off + n <= length buf)%nat -> bytes_at buf off n = Some (take n (drop off buf)).
Proof. intros H. unfold bytes_at. now rewrite decide_True. Qed.

Lemma bytes_at_None buf off n :
  (length buf < off + n)%nat -> bytes_at buf off n = None.
Proof. intros H. unfold bytes_at. rewrite decide_False; [reflexivity | lia]. Qed.

Lemma bytes_at_length buf off n bs :
  bytes_at buf off n = Some bs -> length bs = n.
Proof.
  unfold bytes_at. case_decide; [|discriminate].
  intros [= <-]. rewrite length_take, length_drop. lia.
Qed.

Lemma load_is_Some buf off n :
  (off + n <= length buf)%nat -> load buf off n = Some (le_combine (take n (drop off buf))).
Proof. intros H. unfold load. now rewrite bytes_at_Some. Qed.

Lemma load_None buf off n :
  (length buf < off + n)%nat -> load buf off n = None.
Proof. intros H. unfold load. now rewrite bytes_at_None. Qed.

Lemma load_range buf off n v :
  load buf off n = Some v -> 0 <= v < 2 ^ (8 * Z.of_nat n).
Proof.
  unfold load. destruct (bytes_at buf off n) as [bs|] eqn:E; [|discriminate].
  intros [= <-]. apply bytes_at_length in E. subst n. apply le_combine_bound.
Qed.

Lemma le_combine_cons (b : byte) (bs : list byte) :
  le_combine (b :: bs) = byte.unsigned b + 256 * le_combine bs.
Proof.
  change (le_combine (b :: bs))
    with (Z.lor (byte.unsigned b) (Z.shiftl (le_combine bs) 8)).
  assert (Hdisj : Z.land (byte.unsigned b) (Z.shiftl (le_combine bs) 8) = 0).
  { apply Z.bits_inj'. intros n Hn. rewrite Z.land_spec, Z.bits_0.
    destruct (Z.lt_ge_cases n 8) as [Hlt|Hge].
    - rewrite Z.shiftl_spec_low by lia. apply andb_false_r.
    - rewrite <- (byte.wrap_unsigned b). unfold byte.wrap.
      rewrite Z.mod_pow2_bits_high by lia. reflexivity. }
  rewrite <- Z.lxor_lor by exact Hdisj.
  rewrite <- Z.add_nocarry_lxor by exact Hdisj.
  rewrite Z.shiftl_mul_pow2 by lia. change (2 ^ 8) with 256. lia.
Qed.

Lemma le_combine_2 (b0 b1 : byte) :
  le_combine [b0; b1] = byte.unsigned b0 + 256 * byte.unsigned b1.
Proof. rewrite !le_combine_cons, le_combine_nil. lia. Qed.

Lemma le_combine_4 (b0 b1 b2 b3 : byte) :
  le_combine [b0; b1; b2; b3] =
  byte.unsigned b0 + 256 * byte.unsigned b1 + 65536 * byte.unsigned b2
  + 16777216 * byte.unsigned b3.
Proof. rewrite !le_combine_cons, le_combine_nil. lia. Qed.

End Mem.
Export Mem.

(** ** Single-precision arithmetic

    [float] is IEEE-754 binary32: 24 bits of precision, round to nearest
    even, every operation rounded to single precision (as the SSE code of
    the x64 target does).  The operations are the Standard Library's
    executable [SpecFloat] ones. *)

Module F32.

Definition prec : Z := 24.
Definition emax : Z := 128.

(** [float(n)] for an unsigned integer [n]; also the conversion the usual
    arithmetic conversions apply to an integer operand of a [float]
    operation. *)
Definition of_uint (n : Z) : spec_float := binary_normalize prec emax n 0 false.

Definition div : spec_float -> spec_float -> spec_float := SFdiv prec emax.
Definition mul : spec_float -> spec_float -> spec_float := SFmul prec emax.

(** Conversion to an integer type discards the fractional part. *)
Definition trunc (f : spec_float) : Z :=
  match f with
  | S754_finite s m e =>
      let a := match e with
               | Z0 => Zpos m
               | Zpos p => Zpos m * 2 ^ Zpos p
               | Zneg p => Zpos m / 2 ^ Zpos p
               end in
      if s then - a else a
  | _ => 0
  end.

(** [uint8(f)].  Every value the conversions below produce lies in
    [0, 255]; outside that range the model keeps the low byte of the
    truncated value, as the SSE conversion followed by a byte store does. *)
Definition to_uint8 (f : spec_float) : byte := byte.of_Z (trunc f).

End F32.

(** ** The three rescaling expressions of [ProcessOneFile] *)

Definition UINT8_MAX : Z := 255.
Definition UINT16_MAX : Z := 65535.
Definition UINT_MAX : Z := 4294967295.

(** [uint8((float(x) / UINT16_MAX) * UINT8_MAX)], lines 261-262, 273, 299. *)
Definition scale_u16 (x : Z) : byte :=
  F32.to_uint8 (F32.mul (F32.div (F32.of_uint x) (F32.of_uint UINT16_MAX))
                        (F32.of_uint UINT8_MAX)).

(** [uint8((float(x) / UINT_MAX) * UINT8_MAX)], line 284. *)
Definition scale_uint_max (x : Z) : byte :=
  F32.to_uint8 (F32.mul (F32.div (F32.of_uint x) (F32.of_uint UINT_MAX))
                        (F32.of_uint UINT8_MAX)).

(** [uint8((float(red) / 0xFFFFFF00) * UINT8_MAX)], line 318. *)
Definition scale_r24 (red : Z) : byte :=
  F32.to_uint8 (F32.mul (F32.div (F32.of_uint red) (F32.of_uint 0xFFFFFF00))
                        (F32.of_uint UINT8_MAX)).

(** The rule as the specification words it: [floor(value / 65535 * 255)],
    in exact arithmetic. *)
Definition spec_floor_scale (value : Z) : Z := value * 255 / 65535.

(** Exhaustive checking of a decidable property over an integer range. *)
Fixpoint all_from (f : Z -> bool) (lo : Z) (n : nat) : bool :=
  match n with
  | O => true
  | S k => f lo && all_from f (lo + 1) k
  end.

Lemma all_from_spec f n : forall lo,
  all_from f lo n = true -> forall v, lo <= v < lo + Z.of_nat n -> f v = true.
Proof.
  induction n as [|k IH]; intros lo H v Hv; [lia|].
  cbn [all_from] in H. apply andb_true_iff in H as [H0 H1].
  destruct (Z.eq_dec v lo) as [->|Hne]; [exact H0|].
  apply (IH (lo + 1)); [exact H1 | lia].
Qed.

Lemma scale_u16_table :
  all_from (fun v => byte.unsigned (scale_u16 v) =? spec_floor_scale v)
           0 (Z.to_nat 65536) = true.
Proof. vm_compute. reflexivity. Qed.


(** On every 16-bit value the single-precision computation agrees with the
    exact quotient: the two roundings never carry a result across an
    integer. *)
Lemma scale_u16_floor v :
  0 <= v < 65536 -> byte.unsigned (scale_u16 v) = spec_floor_scale v.
Proof.
  intros Hv. apply Z.eqb_eq.
  apply (all_from_spec _ _ 0 scale_u16_table v).
  rewrite Z2Nat.id; lia.
Qed.


(** ** The conversion loops of [ProcessOneFile]

    Each loop walks a typed pointer over the decompressed payload and
    stores converted bytes into a freshly allocated [p8BitData].  The
    pointer is modelled by its byte offset [cur] from [pDecData], the
    counter [uint32 i] by [idx], the destination by its contents [out]. *)

Inductive Fault : Type :=
  | ReadPastEnd    (* a load outside [pDecData, pDecDataEnd) *)
  | WritePastEnd   (* a store outside the allocation of [p8BitData] *)
  | Uninitialized  (* the value of a variable that was never assigned *)
  | InvalidBool.   (* the value of a [bool] whose byte is neither 0 nor 1 *)

Inductive Outcome : Type :=
  | Done (out : list byte)   (* the loop condition became false *)
  | Undefined (f : Fault).   (* the loop body left defined behaviour *)

Record State : Type := mkState { cur : nat; idx : Z; out : list byte }.

(** A body either faults or yields a value. *)
Definition M (A : Type) : Type := Fault + A.
Definition ret {A} (a : A) : M A := inr a.
Definition bind {A B} (m : M A) (k : A -> M B) : M B :=
  match m with inl f => inl f | inr a => k a end.

Notation "'do' x <- m ; k" := (bind m (fun x => k))
  (at level 10, x name, m at level 100, k at level 200).

Definition checked {A} (o : option A) : M A :=
  match o with Some a => inr a | None => inl ReadPastEnd end.

(** [p8BitData[k] = v] *)
Definition store (buf : list byte) (k : Z) (v : byte) : M (list byte) :=
  if decide (Z.to_nat k < length buf)%nat
  then inr (<[Z.to_nat k := v]> buf)
  else inl WritePastEnd.

Section Bodies.

Variable src : list byte. (* the decompressed payload *)

(** Lines 260-264: [uint16* pChannel], [pChannel += 2]. *)
Definition step_RG16 (st : State) : M State :=
  do c0 <- checked (load_u16 src (cur st));
  do o1 <- store (out st) (wrap32 (idx st * 2 + 0)) (scale_u16 c0);
  do c1 <- checked (load_u16 src (cur st + 2));
  do o2 <- store o1 (wrap32 (idx st * 2 + 1)) (scale_u16 c1);
  ret (mkState (cur st + 4) (wrap32 (idx st + 1)) o2).

(** Lines 272-275: [uint16* pPix], [pPix += 2]. *)
Definition step_R16 (st : State) : M State :=
  do p <- checked (load_u16 src (cur st));
  do o1 <- store (out st) (idx st) (scale_u16 p);
  ret (mkState (cur st + 4) (wrap32 (idx st + 1)) o1).

(** Lines 283-286: as [R16], dividing by [UINT_MAX]. *)
Definition step_R32 (st : State) : M State :=
  do p <- checked (load_u16 src (cur st));
  do o1 <- store (out st) (idx st) (scale_uint_max p);
  ret (mkState (cur st + 4) (wrap32 (idx st + 1)) o1).

(** Lines 295-302: [uint8* pPixel], [pPixel += 0x3]. *)
Definition step_R32G8 (st : State) : M State :=
  do red <- checked (load_u16 src (cur st));
  do green <- checked (load_u8 src (cur st + 2));
  do o1 <- store (out st) (wrap32 (idx st * 2 + 0)) (scale_u16 red);
  do o2 <- store o1 (wrap32 (idx st * 2 + 1)) (byte.of_Z green);
  ret (mkState (cur st + 3) (wrap32 (idx st + 1)) o2).

(** Lines 312-321: [uint32* pPixel], [pPixel += 0x3]. *)
Definition step_R24G8 (st : State) : M State :=
  do pix <- checked (load_u32 src (cur st));
  let red := Z.land pix 0xFFFFFF00 in
  let green := byte.of_Z (Z.land (wrap32 (Z.shiftl pix 0x18)) 0xFF) in
  do o1 <- store (out st) (wrap32 (idx st * 2 + 0)) (scale_r24 red);
  do o2 <- store o1 (wrap32 (idx st * 2 + 1)) green;
  ret (mkState (cur st + 12) (wrap32 (idx st + 1)) o2).

(** [for (p = pDecData; p != pDecDataEnd; ...)]: the condition compares
    the pointer with the end for equality only.  [None] means the fuel
    ran out before the loop reached an outcome. *)
Fixpoint loop (step : State -> M State) (fuel : nat) (st : State)
  : option Outcome :=
  match fuel with
  | O => None
  | S fuel' =>
      if decide (cur st = length src) then Some (Done (out st))
      else match step st with
           | inl f => Some (Undefined f)
           | inr st' => loop step fuel' st'
           end
  end.

(** One more iteration than the payload has bytes always suffices
    ([loop_total] below). *)
Definition run (step : State -> M State) (dst : list byte) : option Outcome :=
  loop step (S (length src)) (mkState 0 0 dst).

End Bodies.

(** ** What a loop computes, for any stride

    A body that consumes [width] bytes at the pointer, stores the [ch]
    bytes [px] makes of them at [i * ch], and advances the pointer by
    [stride]. *)

Section Generic.

Variable src : list byte.
Variables stride width ch : nat.
Variable px : list byte -> list byte.
Variable step : State -> M State.

Hypothesis width_pos : (0 < width)%nat.
Hypothesis width_stride : (width <= stride)%nat.
Hypothesis px_length : forall bs, length (px bs) = ch.

Hypothesis step_spec : forall (k : nat) (o : list byte) (st' : State),
  step (mkState (stride * k) (Z.of_nat k) o) = inr st' <->
  exists bs, bytes_at src (stride * k) width = Some bs /\
             (ch * k + ch <= length o)%nat /\
             st' = mkState (stride * S k) (Z.of_nat (S k))
                           (list_inserts (ch * k) (px bs) o).

(** The first [k] pixels of [o] are converted, the rest is still [dst]. *)
Definition converted (dst : list byte) (k : nat) (o : list byte) : Prop :=
  length o = length dst /\
  (forall j c : nat, (j < k)%nat -> (c < ch)%nat ->
     o !! (ch * j + c)%nat = px (take width (drop (stride * j) src)) !! c) /\
  (forall p : nat, (ch * k <= p)%nat -> o !! p = dst !! p).

Lemma converted_init dst : converted dst 0 dst.
Proof. split; [reflexivity|]. split; [intros; lia | reflexivity]. Qed.

Lemma converted_step dst k o bs :
  converted dst k o ->
  bytes_at src (stride * k) width = Some bs ->
  (ch * k + ch <= length o)%nat ->
  converted dst (S k) (list_inserts (ch * k) (px bs) o).
Proof.
  intros (Hlen & Hlow & Hhigh) Hbs Hfit.
  assert (bs = take width (drop (stride * k) src)) as Ebs.
  { unfold bytes_at in Hbs. case_decide; congruence. }
  repeat split.
  - now rewrite length_inserts.
  - intros j c Hj Hc. destruct (decide (j = k)) as [->|Hne].
    + rewrite list_lookup_inserts; [| rewrite px_length; lia | lia].
      rewrite <- Ebs. f_equal. lia.
    + rewrite list_lookup_inserts_lt by nia. apply Hlow; lia.
  - intros p Hp. rewrite list_lookup_inserts_ge by (rewrite px_length; lia).
    apply Hhigh. lia.
Qed.

(** A normal exit happens at a multiple of the stride, with every pixel
    before it converted. *)
Lemma loop_done dst d : forall fuel k o,
  converted dst k o ->
  loop src step fuel (mkState (stride * k) (Z.of_nat k) o) = Some (Done d) ->
  exists n, length src = (stride * n)%nat /\ converted dst n d.
Proof.
  induction fuel as [|fuel IH]; intros k o Hinv Hrun; [discriminate|].
  cbn [loop cur] in Hrun. case_decide as Hend.
  - injection Hrun as <-. exists k. split; [now symmetry | exact Hinv].
  - destruct (step _) as [f|st'] eqn:Hst; [discriminate|].
    apply step_spec in Hst as (bs & Hbs & Hfit & ->).
    eapply IH; [|exact Hrun].
    now apply converted_step.
Qed.

(** The loop reaches an outcome while the fuel exceeds the distance to
    the end of the payload. *)
Lemma loop_total : forall fuel k o,
  (0 < fuel)%nat -> (length src < stride * k + fuel)%nat ->
  exists oc, loop src step fuel (mkState (stride * k) (Z.of_nat k) o) = Some oc.
Proof.
  induction fuel as [|fuel IH]; intros k o Hpos Hfuel; [lia|].
  cbn [loop cur]. case_decide as Hend; [eauto|].
  destruct (step _) as [f|st'] eqn:Hst; [eauto|].
  apply step_spec in Hst as (bs & Hbs & Hfit & ->).
  unfold bytes_at in Hbs. case_decide; [|discriminate].
  apply IH; nia.
Qed.

(** With room for every pixel, a payload of [n] whole strides is
    converted to the end. *)
Lemma loop_progress n : forall fuel k o,
  length src = (stride * n)%nat ->
  (ch * n <= length o)%nat -> (k <= n)%nat -> (n - k < fuel)%nat ->
  exists d, loop src step fuel (mkState (stride * k) (Z.of_nat k) o) = Some (Done d).
Proof.
  induction fuel as [|fuel IH]; intros k o Hsz Hcap Hk Hfuel; [lia|].
  cbn [loop cur]. case_decide as Hend; [eauto|].
  assert (k < n)%nat as Hlt.
  { destruct (decide (k = n)) as [->|]; [congruence | lia]. }
  assert (exists st', step (mkState (stride * k) (Z.of_nat k) o) = inr st')
    as [st' Hst].
  { eexists. apply step_spec. exists (take width (drop (stride * k) src)).
    split; [apply bytes_at_Some; nia|]. split; [nia | reflexivity]. }
  rewrite Hst. apply step_spec in Hst as (bs & Hbs & Hfit & ->).
  apply IH; [exact Hsz | rewrite length_inserts; exact Hcap | lia | lia].
Qed.

End Generic.

(** ** The five loops against the generic one *)

Lemma bind_inr {A B} (m : M A) (k : A -> M B) (b : B) :
  bind m k = inr b <-> exists a, m = inr a /\ k a = inr b.
Proof.
  destruct m as [f|a]; cbn; split.
  - discriminate.
  - intros (a & Ha & _). discriminate.
  - eauto.
  - intros (a' & [= <-] & H). exact H.
Qed.

Lemma checked_load_inr src off n v :
  checked (load src off n) = inr v <->
  (off + n <= length src)%nat /\ v = le_combine (take n (drop off src)).
Proof.
  unfold load, bytes_at. case_decide; cbn; split.
  - intros [= <-]. auto.
  - intros [_ ->]. reflexivity.
  - discriminate.
  - intros [? _]. lia.
Qed.

Lemma store_inr buf k v b :
  store buf k v = inr b <->
  (Z.to_nat k < length buf)%nat /\ b = <[Z.to_nat k := v]> buf.
Proof.
  unfold store. case_decide; split.
  - intros [= <-]. auto.
  - intros [_ ->]. reflexivity.
  - discriminate.
  - intros [? _]. lia.
Qed.

Lemma checked_load_ok src off n :
  (off + n <= length src)%nat ->
  checked (load src off n) = inr (le_combine (take n (drop off src))).
Proof. intros H. now apply checked_load_inr. Qed.

Lemma store_ok buf k v :
  (Z.to_nat k < length buf)%nat -> store buf k v = inr (<[Z.to_nat k := v]> buf).
Proof. intros H. now apply store_inr. Qed.

Lemma insert_pair (o : list byte) (i i' j : nat) (a b : byte) :
  i' = i -> j = S i -> <[j := b]> (<[i' := a]> o) = list_inserts i [a; b] o.
Proof.
  intros -> ->. cbn [list_inserts]. apply list_insert_insert_ne. lia.
Qed.

Lemma length_store buf k v b : store buf k v = inr b -> length b = length buf.
Proof. intros (_ & ->)%store_inr. apply length_insert. Qed.

(** The bytes of one pixel, per layout. *)
Definition px_RG16 (bs : list byte) : list byte :=
  [scale_u16 (le_combine (take 2 bs)); scale_u16 (le_combine (take 2 (drop 2 bs)))].
Definition px_R16 (bs : list byte) : list byte := [scale_u16 (le_combine bs)].
Definition px_R32 (bs : list byte) : list byte := [scale_uint_max (le_combine bs)].
Definition px_R32G8 (bs : list byte) : list byte :=
  [scale_u16 (le_combine (take 2 bs)); byte.of_Z (le_combine (take 1 (drop 2 bs)))].
Definition px_R24G8 (bs : list byte) : list byte :=
  let pix := le_combine bs in
  [scale_r24 (Z.land pix 0xFFFFFF00);
   byte.of_Z (Z.land (wrap32 (Z.shiftl pix 0x18)) 0xFF)].

Section StepSpecs.

Variable src : list byte.
Hypothesis size_u32 : Z.of_nat (length src) < 2 ^ 32.

Local Ltac invert_step H :=
  repeat first
    [ apply bind_inr in H as (? & ? & H)
    | match type of H with ret _ = inr _ => injection H as <- end ];
  repeat match goal with
    | E : checked (load_u8 _ _) = inr _ |- _ => apply checked_load_inr in E as [? ->]
    | E : checked (load_u16 _ _) = inr _ |- _ => apply checked_load_inr in E as [? ->]
    | E : checked (load_u32 _ _) = inr _ |- _ => apply checked_load_inr in E as [? ->]
    end.

Local Ltac small_index :=
  rewrite ?(wrap32_small (_ * 2 + _)), ?(wrap32_small (Z.of_nat _ + 1)) in * by lia; rewrite ?Z2Nat.inj_add, ?Z2Nat.inj_mul, ?Nat2Z.id in * by lia;
  change (Z.to_nat 0) with 0%nat in *; change (Z.to_nat 1) with 1%nat in *;
  change (Z.to_nat 2) with 2%nat in *.

Lemma take_bytes_at off n m k :
  (m + k <= n)%nat ->
  take k (drop m (take n (drop off src))) = take k (drop (off + m) src).
Proof.
  intros H. rewrite skipn_firstn_comm, take_take, drop_drop.
  f_equal. lia.
Qed.

Lemma take_bytes_at0 off n k :
  (k <= n)%nat -> take k (take n (drop off src)) = take k (drop off src).
Proof. intros H. rewrite take_take. f_equal. lia. Qed.

Lemma step_RG16_spec (k : nat) (o : list byte) (st' : State) :
  step_RG16 src (mkState (4 * k) (Z.of_nat k) o) = inr st' <->
  exists bs, bytes_at src (4 * k) 4 = Some bs /\
             (2 * k + 2 <= length o)%nat /\
             st' = mkState (4 * S k) (Z.of_nat (S k))
                           (list_inserts (2 * k) (px_RG16 bs) o).
Proof.
  unfold step_RG16; cbn [cur idx out]. split.
  - intros H. invert_step H.
    match goal with E1 : store o _ _ = inr _, E2 : store _ _ _ = inr _ |- _ =>
      apply store_inr in E1 as [Hi1 ->]; apply store_inr in E2 as [Hi2 ->] end.
    rewrite length_insert in Hi2.
    eexists. split; [apply bytes_at_Some; lia|].
    small_index. split; [lia|].
    f_equal; [lia | lia |].
    unfold px_RG16. rewrite (take_bytes_at0 _ 4 2), (take_bytes_at _ 4 2 2) by lia.
    apply insert_pair; lia.
  - intros (bs & Hbs & Hfit & ->).
    unfold bytes_at in Hbs. case_decide as Hin; [|discriminate].
    injection Hbs as <-. unfold load_u16.
    rewrite !checked_load_ok by lia. cbn [bind].
    rewrite store_ok by (small_index; lia). cbn [bind].
    rewrite store_ok by (rewrite length_insert; small_index; lia). cbn [bind ret].
    small_index. do 2 f_equal; [lia | lia |].
    unfold px_RG16. rewrite (take_bytes_at0 _ 4 2), (take_bytes_at _ 4 2 2) by lia.
    apply insert_pair; lia.
Qed.

Lemma step_R16_spec (k : nat) (o : list byte) (st' : State) :
  step_R16 src (mkState (4 * k) (Z.of_nat k) o) = inr st' <->
  exists bs, bytes_at src (4 * k) 2 = Some bs /\
             (1 * k + 1 <= length o)%nat /\
             st' = mkState (4 * S k) (Z.of_nat (S k))
                           (list_inserts (1 * k) (px_R16 bs) o).
Proof.
  unfold step_R16; cbn [cur idx out]. split.
  - intros H. invert_step H.
    match goal with E1 : store o _ _ = inr _ |- _ =>
      apply store_inr in E1 as [Hi1 ->] end.
    eexists. split; [apply bytes_at_Some; lia|].
    small_index. split; [lia|].
    f_equal; [lia | lia |].
    cbn [list_inserts px_R16]. f_equal. lia.
  - intros (bs & Hbs & Hfit & ->).
    unfold bytes_at in Hbs. case_decide as Hin; [|discriminate].
    injection Hbs as <-. unfold load_u16.
    rewrite !checked_load_ok by lia. cbn [bind].
    rewrite store_ok by (small_index; lia). cbn [bind ret].
    small_index. do 2 f_equal; [lia | lia |].
    cbn [list_inserts px_R16]. f_equal. lia.
Qed.

Lemma step_R32_spec (k : nat) (o : list byte) (st' : State) :
  step_R32 src (mkState (4 * k) (Z.of_nat k) o) = inr st' <->
  exists bs, bytes_at src (4 * k) 2 = Some bs /\
             (1 * k + 1 <= length o)%nat /\
             st' = mkState (4 * S k) (Z.of_nat (S k))
                           (list_inserts (1 * k) (px_R32 bs) o).
Proof.
  unfold step_R32; cbn [cur idx out]. split.
  - intros H. invert_step H.
    match goal with E1 : store o _ _ = inr _ |- _ =>
      apply store_inr in E1 as [Hi1 ->] end.
    eexists. split; [apply bytes_at_Some; lia|].
    small_index. split; [lia|].
    f_equal; [lia | lia |].
    cbn [list_inserts px_R32]. f_equal. lia.
  - intros (bs & Hbs & Hfit & ->).
    unfold bytes_at in Hbs. case_decide as Hin; [|discriminate].
    injection Hbs as <-. unfold load_u16.
    rewrite !checked_load_ok by lia. cbn [bind].
    rewrite store_ok by (small_index; lia). cbn [bind ret].
    small_index. do 2 f_equal; [lia | lia |].
    cbn [list_inserts px_R32]. f_equal. lia.
Qed.

Lemma step_R32G8_spec (k : nat) (o : list byte) (st' : State) :
  step_R32G8 src (mkState (3 * k) (Z.of_nat k) o) = inr st' <->
  exists bs, bytes_at src (3 * k) 3 = Some bs /\
             (2 * k + 2 <= length o)%nat /\
             st' = mkState (3 * S k) (Z.of_nat (S k))
                           (list_inserts (2 * k) (px_R32G8 bs) o).
Proof.
  unfold step_R32G8; cbn [cur idx out]. split.
  - intros H. invert_step H.
    match goal with E1 : store o _ _ = inr _, E2 : store _ _ _ = inr _ |- _ =>
      apply store_inr in E1 as [Hi1 ->]; apply store_inr in E2 as [Hi2 ->] end.
    rewrite length_insert in Hi2.
    eexists. split; [apply bytes_at_Some; lia|].
    small_index. split; [lia|].
    f_equal; [lia | lia |].
    unfold px_R32G8. rewrite (take_bytes_at0 _ 3 2), (take_bytes_at _ 3 2 1) by lia.
    apply insert_pair; lia.
  - intros (bs & Hbs & Hfit & ->).
    unfold bytes_at in Hbs. case_decide as Hin; [|discriminate].
    injection Hbs as <-. unfold load_u16, load_u8.
    rewrite !checked_load_ok by lia. cbn [bind].
    rewrite store_ok by (small_index; lia). cbn [bind].
    rewrite store_ok by (rewrite length_insert; small_index; lia). cbn [bind ret].
    small_index. do 2 f_equal; [lia | lia |].
    unfold px_R32G8. rewrite (take_bytes_at0 _ 3 2), (take_bytes_at _ 3 2 1) by lia.
    apply insert_pair; lia.
Qed.

Lemma step_R24G8_spec (k : nat) (o : list byte) (st' : State) :
  step_R24G8 src (mkState (12 * k) (Z.of_nat k) o) = inr st' <->
  exists bs, bytes_at src (12 * k) 4 = Some bs /\
             (2 * k + 2 <= length o)%nat /\
             st' = mkState (12 * S k) (Z.of_nat (S k))
                           (list_inserts (2 * k) (px_R24G8 bs) o).
Proof.
  unfold step_R24G8; cbn [cur idx out]. split.
  - intros H. invert_step H. cbv zeta in H.
    invert_step H.
    match goal with E1 : store o _ _ = inr _, E2 : store _ _ _ = inr _ |- _ =>
      apply store_inr in E1 as [Hi1 ->]; apply store_inr in E2 as [Hi2 ->] end.
    rewrite length_insert in Hi2.
    eexists. split; [apply bytes_at_Some; lia|].
    small_index. split; [lia|].
    f_equal; [lia | lia |].
    unfold px_R24G8. cbv zeta.
    apply insert_pair; lia.
  - intros (bs & Hbs & Hfit & ->).
    unfold bytes_at in Hbs. case_decide as Hin; [|discriminate].
    injection Hbs as <-. unfold load_u32.
    rewrite !checked_load_ok by lia. cbn [bind]. cbv zeta.
    rewrite store_ok by (small_index; lia). cbn [bind].
    rewrite store_ok by (rewrite length_insert; small_index; lia). cbn [bind ret].
    small_index. do 2 f_equal; [lia | lia |].
    unfold px_R24G8. cbv zeta.
    apply insert_pair; lia.
Qed.

End StepSpecs.

(** ** Layout tags *)

(** [enum class TCOLayout : int], lines 49-55; the tags number from 0. *)
Inductive TCOLayout : Type :=
  | BC1 | BC2 | BC3 | BC4 | BC5
  | _Not_Used_
  | R11G11B10 | RGBA8 | RG16
  | R16 | R32 | R32G8 | R24G8
  | R8.

Definition layout_tag (l : TCOLayout) : Z :=
  match l with
  | BC1 => 0 | BC2 => 1 | BC3 => 2 | BC4 => 3 | BC5 => 4
  | _Not_Used_ => 5
  | R11G11B10 => 6 | RGBA8 => 7 | RG16 => 8
  | R16 => 9 | R32 => 10 | R32G8 => 11 | R24G8 => 12
  | R8 => 13
  end.

(** The enumerator an [int] stored in a header names, if any. *)
Definition layout_of_tag (t : Z) : option TCOLayout :=
  match t with
  | 0 => Some BC1 | 1 => Some BC2 | 2 => Some BC3 | 3 => Some BC4 | 4 => Some BC5
  | 5 => Some _Not_Used_
  | 6 => Some R11G11B10 | 7 => Some RGBA8 | 8 => Some RG16
  | 9 => Some R16 | 10 => Some R32 | 11 => Some R32G8 | 12 => Some R24G8
  | 13 => Some R8
  | _ => None
  end.

Local Open Scope string_scope.

(** [ToString], lines 58-91. *)
Definition ToString (layout : Z) : string :=
  match layout_of_tag layout with
  | Some BC1 => "BC1"
  | Some BC2 => "BC2"
  | Some BC3 => "BC3"
  | Some BC4 => "BC4"
  | Some BC5 => "BC5"
  | Some _Not_Used_ => "NOT USED"
  | Some R11G11B10 => "R11G11B10"
  | Some RGBA8 => "RGBA8"
  | Some RG16 => "RG16"
  | Some R16 => "R16"
  | Some R32 => "R32"
  | Some R32G8 => "R32G8"
  | Some R24G8 => "R24G8"
  | Some R8 => "R8"
  | None => "ERROR"
  end.

Local Close Scope string_scope.

(** The loops by layout: pointer stride and bytes loaded per iteration,
    bytes stored per iteration, and the body. *)
Record Conv : Type := mkConv {
  c_stride : nat;
  c_width : nat;
  c_ch : nat;
  c_px : list byte -> list byte;
  c_step : list byte -> State -> M State
}.

Definition conv_of (l : TCOLayout) : option Conv :=
  match l with
  | RG16 => Some (mkConv 4 4 2 px_RG16 step_RG16)
  | R16 => Some (mkConv 4 2 1 px_R16 step_R16)
  | R32 => Some (mkConv 4 2 1 px_R32 step_R32)
  | R32G8 => Some (mkConv 3 3 2 px_R32G8 step_R32G8)
  | R24G8 => Some (mkConv 12 4 2 px_R24G8 step_R24G8)
  | _ => None
  end.

Definition convert (c : Conv) (src dst : list byte) : option Outcome :=
  run src (c_step c src) dst.

Section Convert.

Variables (l : TCOLayout) (c : Conv).
Hypothesis Hc : conv_of l = Some c.
Variable src : list byte.
Hypothesis size_u32 : Z.of_nat (length src) < 2 ^ 32.

Lemma conv_width_pos : (0 < c_width c)%nat.
Proof. destruct l; inversion Hc; subst; cbn; lia. Qed.

Lemma conv_width_stride : (c_width c <= c_stride c)%nat.
Proof. destruct l; inversion Hc; subst; cbn; lia. Qed.

Lemma conv_px_length bs : length (c_px c bs) = c_ch c.
Proof. destruct l; inversion Hc; subst; reflexivity. Qed.

Lemma conv_step_spec (k : nat) (o : list byte) (st' : State) :
  c_step c src (mkState (c_stride c * k) (Z.of_nat k) o) = inr st' <->
  exists bs, bytes_at src (c_stride c * k) (c_width c) = Some bs /\
             (c_ch c * k + c_ch c <= length o)%nat /\
             st' = mkState (c_stride c * S k) (Z.of_nat (S k))
                           (list_inserts (c_ch c * k) (c_px c bs) o).
Proof.
  destruct l; inversion Hc; subst; cbn [c_step c_stride c_width c_ch c_px].
  - now apply step_RG16_spec.
  - now apply step_R16_spec.
  - now apply step_R32_spec.
  - now apply step_R32G8_spec.
  - now apply step_R24G8_spec.
Qed.

Local Ltac conv_side :=
  first [ exact conv_width_pos | exact conv_width_stride
        | exact conv_px_length | exact conv_step_spec | lia ].

Lemma init_state dst :
  mkState 0 0 dst = mkState (c_stride c * 0) (Z.of_nat 0) dst.
Proof. f_equal. lia. Qed.

(** The model's loop always reaches an outcome. *)
Lemma convert_total dst : exists oc, convert c src dst = Some oc.
Proof.
  unfold convert, run.
  rewrite (init_state dst).
  eapply loop_total; conv_side.
Qed.

Lemma convert_done dst d :
  convert c src dst = Some (Done d) ->
  exists n, length src = (c_stride c * n)%nat /\
            converted src (c_stride c) (c_width c) (c_ch c) (c_px c) dst n d.
Proof.
  unfold convert, run. rewrite (init_state dst). intros H.
  eapply loop_done;
    [ exact conv_width_pos | exact conv_width_stride | exact conv_px_length
    | exact conv_step_spec | apply converted_init; conv_side | exact H ].
Qed.

Lemma convert_progress dst n :
  length src = (c_stride c * n)%nat -> (c_ch c * n <= length dst)%nat ->
  exists d, convert c src dst = Some (Done d).
Proof.
  intros Hsz Hcap. unfold convert, run.
  rewrite (init_state dst).
  pose proof conv_width_pos. pose proof conv_width_stride.
  eapply (loop_progress src (c_stride c) (c_width c) (c_ch c)); try conv_side;
    [exact Hsz | exact Hcap | nia].
Qed.

End Convert.

(** ** Headers *)

(** [struct BaseHeader], lines 93-95. *)
Record BaseHeader : Type := mkBaseHeader { flag : Z }.

(** [struct CompressedDataHeader : BaseHeader], lines 97-102; 0x18 bytes. *)
Record CompressedDataHeader : Type := mkCompressedDataHeader {
  comp_base : BaseHeader;
  comp_unk : list byte;
  dataHeaderSize : Z;
  compressedSize : Z;
  decompressedSize : Z
}.

(** [struct TCOHeader : BaseHeader], lines 105-112; 0x18 bytes. *)
Record TCOHeader : Type := mkTCOHeader {
  tco_base : BaseHeader;
  width : Z;
  height : Z;
  layout : Z;          (* the [int] under [TCOLayout] *)
  numMips : Z;
  flipV : Z;           (* the byte that holds the [bool] *)
  tco_pad : list byte
}.

(** The value of a [bool] object whose byte is [b]: only 0 and 1 are
    values of the type; reading any other byte as a [bool] is undefined. *)
Definition bool_value (b : Z) : option bool :=
  if decide (b = 0) then Some false
  else if decide (b = 1) then Some true
  else None.

(** The [n]-byte little-endian field at offset [off] of an object. *)
Definition field (bs : list byte) (off n : nat) : Z :=
  le_combine (take n (drop off bs)).

(** A type [Read] can be instantiated at: its size and the value an
    object representation denotes (the pointer cast and load of line 42). *)
Class Pod (T : Type) : Type := {
  sizeof : nat;
  overlay : list byte -> T
}.
Arguments sizeof T {_}.

#[global] Instance BaseHeader_pod : Pod BaseHeader := {|
  sizeof := 4;
  overlay bs := mkBaseHeader (field bs 0 4)
|}.

#[global] Instance CompressedDataHeader_pod : Pod CompressedDataHeader := {|
  sizeof := 24;
  overlay bs :=
    mkCompressedDataHeader (mkBaseHeader (field bs 0 4)) (take 8 (drop 4 bs))
      (field bs 12 4) (field bs 16 4) (field bs 20 4)
|}.

#[global] Instance TCOHeader_pod : Pod TCOHeader := {|
  sizeof := 24;
  overlay bs :=
    mkTCOHeader (mkBaseHeader (field bs 0 4)) (field bs 4 4) (field bs 8 4)
      (to_int32 (field bs 12 4)) (field bs 16 4)
      (field bs 20 1) (take 3 (drop 21 bs))
|}.

(** [Read], lines 37-46.  [buf] is the offset of the read pointer in
    [data]; the result carries the pointer after the call. *)
Definition Read (T : Type) `{Pod T} (data : list byte) (buf : nat) (advance : bool)
  : option (T * nat) :=
  if decide (length data <= buf + sizeof T)%nat then None
  else Some (overlay (take (sizeof T) (drop buf data)),
             if advance then (buf + sizeof T)%nat else buf).

(** ** Messages and effects *)

(** The texts [ProcessOneFile] and [DecompressBC] hand to [LogError]. *)
Inductive Message : Type :=
  | MsgIncomplete
  | MsgBaseHeader
  | MsgUnsupportedFlag (flag : Z)
  | MsgCompHeader
  | MsgHeaderSize
  | MsgTCOHeader
  | MsgDecompress
  | MsgLayout (layout : Z)
  | MsgScratchImage
  | MsgDecompressImage
  | MsgWrite.

Local Open Scope string_scope.

Definition message_text (m : Message) : string :=
  match m with
  | MsgIncomplete => "File is incomplete or malformed"
  | MsgBaseHeader => "Failed to read base header"
  | MsgUnsupportedFlag f => "ERROR: File has unsupported type flag: " +:+ pretty f
  | MsgCompHeader => "Failed to read compressed data header"
  | MsgHeaderSize => "File dataHeaderSize did not match TCOHeader size"
  | MsgTCOHeader => "Failed to read TCO header"
  | MsgDecompress => "Failed to decompress file data"
  | MsgLayout l => "TCO Layout (" +:+ pretty l +:+ ") is not currently supported"
  | MsgScratchImage => "Failed to initialize DX ScratchImage"
  | MsgDecompressImage => "Failed to decompress image data"
  | MsgWrite => "Failed to write image to disk"
  end.

(** The line [LogError] appends to [gVecErrorMessages], lines 30-35. *)
Definition LogError (fname : string) (m : Message) : string :=
  "File: '" +:+ fname +:+ "': " +:+ message_text m.

Definition outName (fName : string) : string :=
  "./Textures_OUT/" +:+ fName +:+ ".tga".

Local Close Scope string_scope.

Inductive DXGI_FORMAT : Type :=
  | DXGI_FORMAT_BC1_TYPELESS | DXGI_FORMAT_BC2_TYPELESS | DXGI_FORMAT_BC3_TYPELESS
  | DXGI_FORMAT_BC4_TYPELESS | DXGI_FORMAT_BC5_TYPELESS
  | DXGI_FORMAT_R8G8B8A8_UNORM | DXGI_FORMAT_R8_UNORM | DXGI_FORMAT_R8G8_UNORM.

(** What a file's processing does to the world, in order.  Console output
    is left out. *)
Inductive Event : Type :=
  | EvError (fName : string) (m : Message)
      (* [LogError] *)
  | EvLZ4 (src : list byte) (compressedSize dstCapacity : Z)
      (* a call of [LZ4_decompress_safe] *)
  | EvDirectX (source : list byte) (w h mips : Z) (sourceFormat dstFormat : DXGI_FORMAT)
      (* the [ScratchImage] set-up and [DirectX::Decompress] *)
  | EvWrite (name : string) (w h comp : Z) (data : list byte) (flip : bool) (res : Z)
      (* [stbi_flip_vertically_on_write(flip)] and [stbi_write_tga], with its result *)
  | EvUndefined (f : Fault)
      (* a conversion loop left defined behaviour *)
  | EvHang.
      (* a conversion loop did not finish (never produced, see [convert_total]) *)

(** [gVecErrorMessages] after the events. *)
Definition errors (evs : list Event) : list string :=
  omap (fun e => match e with EvError n m => Some (LogError n m) | _ => None end) evs.

(** The images written to disk. *)
Definition written (evs : list Event) : list (string * (Z * Z * Z * list byte * bool)) :=
  omap (fun e => match e with
                 | EvWrite n w h c d f r =>
                     if decide (r = 0) then None else Some (n, (w, h, c, d, f))
                 | _ => None
                 end) evs.

(** ** The pipeline *)

(** The result of the DirectXTex calls of [DecompressBC]. *)
Inductive DxResult : Type :=
  | DxInitFailed                      (* [compImage.Initialize] failed *)
  | DxDecompressFailed                (* [DirectX::Decompress] failed *)
  | DxImage (pixels : list byte).     (* image 0; [slicePitch] is its length *)

Section Pipeline.

(** The services the program links against.  [LZ4_decompress_safe src
    compressedSize dstCapacity] gives the return value and the bytes it
    stored at the start of the destination. *)
Variable LZ4_decompress_safe : list byte -> Z -> Z -> Z * list byte.
Variable DirectX_Decompress :
  list byte -> Z -> Z -> Z -> DXGI_FORMAT -> DXGI_FORMAT -> DxResult.
Variable stbi_write_tga : string -> Z -> Z -> Z -> list byte -> bool -> Z.

(** The indeterminate contents of the two fresh allocations, [pDecData]
    and [p8BitData]. *)
Variables junk_dec junk_out : nat -> byte.

(** [new T[n]] *)
Definition new_array (junk : nat -> byte) (n : Z) : list byte :=
  junk <$> seq 0 (Z.to_nat n).

(** [buf] after [n] bytes of [from] were copied to its start. *)
Definition memcpy (buf from : list byte) (n : nat) : list byte :=
  take n from ++ drop n buf.

(** The [sourceFormat] and [dstFormat] switches, lines 362-394; neither
    assigns anything for a layout outside BC1..BC5. *)
Definition bc_formats (l : Z) : option (DXGI_FORMAT * DXGI_FORMAT) :=
  match layout_of_tag l with
  | Some BC1 => Some (DXGI_FORMAT_BC1_TYPELESS, DXGI_FORMAT_R8G8B8A8_UNORM)
  | Some BC2 => Some (DXGI_FORMAT_BC2_TYPELESS, DXGI_FORMAT_R8G8B8A8_UNORM)
  | Some BC3 => Some (DXGI_FORMAT_BC3_TYPELESS, DXGI_FORMAT_R8G8B8A8_UNORM)
  | Some BC4 => Some (DXGI_FORMAT_BC4_TYPELESS, DXGI_FORMAT_R8_UNORM)
  | Some BC5 => Some (DXGI_FORMAT_BC5_TYPELESS, DXGI_FORMAT_R8G8_UNORM)
  | _ => None
  end.

(** [DecompressBC], lines 354-437: the new [dst] ([None] for
    [nullptr]), [numChannels] and the effects. *)
Definition DecompressBC (fName : string) (source : list byte) (header : TCOHeader)
  : option (list byte) * Z * list Event :=
  let numChannels :=
    if decide (layout header = layout_tag BC4) then 1
    else if decide (layout header = layout_tag BC5) then 2
    else 4 in
  match bc_formats (layout header) with
  | None => (None, numChannels, [EvUndefined Uninitialized])
  | Some (sourceFormat, dstFormat) =>
      let size := wrap32 (wrap32 (width header * height header) * numChannels) in
      let p8BitData := new_array junk_out size in
      let call := EvDirectX source (width header) (height header) (numMips header)
                            sourceFormat dstFormat in
      match DirectX_Decompress source (width header) (height header)
                               (numMips header) sourceFormat dstFormat with
      | DxInitFailed => (None, numChannels, [call; EvError fName MsgScratchImage])
      | DxDecompressFailed => (None, numChannels, [call; EvError fName MsgDecompressImage])
      | DxImage pixels =>
          (Some (memcpy p8BitData pixels (Nat.min (length pixels) (Z.to_nat size))),
           numChannels, [call])
      end
  end.

(** A conversion case of the switch: allocate, run the loop. *)
Definition converted_case (numChannels : Z) (step : list byte -> State -> M State)
    (pDecData : list byte) (tcoHeader : TCOHeader)
  : option (list byte) * Z * list Event :=
  let p8BitData :=
    new_array junk_out (wrap32 (wrap32 (width tcoHeader * height tcoHeader) * numChannels)) in
  match run pDecData (step pDecData) p8BitData with
  | Some (Done d) => (Some d, numChannels, [])
  | Some (Undefined f) => (None, numChannels, [EvUndefined f])
  | None => (None, numChannels, [EvHang])
  end.

(** The switch on [tcoHeader.layout], lines 236-333. *)
Definition unpack (fName : string) (pDecData : list byte) (tcoHeader : TCOHeader)
  : option (list byte) * Z * list Event :=
  match layout_of_tag (layout tcoHeader) with
  | Some BC1 | Some BC2 | Some BC3 | Some BC4 | Some BC5 =>
      DecompressBC fName pDecData tcoHeader
  | Some R11G11B10 => (Some pDecData, 4, [])
  | Some RGBA8 => (Some pDecData, 4, [])
  | Some RG16 => converted_case 2 step_RG16 pDecData tcoHeader
  | Some R16 => converted_case 1 step_R16 pDecData tcoHeader
  | Some R32 => converted_case 1 step_R32 pDecData tcoHeader
  | Some R32G8 => converted_case 2 step_R32G8 pDecData tcoHeader
  | Some R24G8 => converted_case 2 step_R24G8 pDecData tcoHeader
  | Some R8 => (Some pDecData, 1, [])
  | Some _Not_Used_ | None =>
      (None, 0, [EvError fName (MsgLayout (layout tcoHeader))])
  end.

(** The output stage, lines 340-347: the orientation is [!tcoHeader.flipV],
    which has a value only when the header's byte is a [bool].  (The
    header line printed at lines 219-222 reads the field too; console
    output is not part of the model.) *)
Definition write_image (fName : string) (tcoHeader : TCOHeader) (numChannels : Z)
    (pixels : list byte) : list Event :=
  match bool_value (flipV tcoHeader) with
  | None => [EvUndefined InvalidBool]
  | Some flipV_value =>
      let flip := negb flipV_value in
      let w := to_int32 (width tcoHeader) in
      let h := to_int32 (height tcoHeader) in
      let res := stbi_write_tga (outName fName) w h numChannels pixels flip in
      EvWrite (outName fName) w h numChannels pixels flip res ::
      (if decide (res = 0) then [EvError fName MsgWrite] else [])
  end.

(** [ProcessOneFile], lines 181-352, on the bytes [ReadFile] returned. *)
Definition ProcessOneFile (fName : string) (data : list byte) : list Event :=
  if decide (data = []) then []
  else if decide (length data < sizeof TCOHeader)%nat then [EvError fName MsgIncomplete]
  else
    match Read BaseHeader data 0 false with
    | None => [EvError fName MsgBaseHeader]
    | Some (baseHeader, pData) =>
    if decide (flag baseHeader = 4) then
      match Read CompressedDataHeader data pData true with
      | None => [EvError fName MsgCompHeader]
      | Some (compHeader, pData) =>
      if decide (dataHeaderSize compHeader = Z.of_nat (sizeof TCOHeader)) then
        match Read TCOHeader data pData true with
        | None => [EvError fName MsgTCOHeader]
        | Some (tcoHeader, pData) =>
            let src := drop pData data in
            let csize := to_int32 (compressedSize compHeader) in
            let dsize := to_int32 (decompressedSize compHeader) in
            let '(res, stored) := LZ4_decompress_safe src csize dsize in
            let fresh := new_array junk_dec (decompressedSize compHeader) in
            let pDecData :=
              memcpy fresh stored (Nat.min (length stored) (length fresh)) in
            EvLZ4 src csize dsize ::
            if decide (res <= 0) then [EvError fName MsgDecompress]
            else
              let '(p8BitData, numChannels, evs) := unpack fName pDecData tcoHeader in
              evs ++
              match p8BitData with
              | None => []
              | Some pixels => write_image fName tcoHeader numChannels pixels
              end
        end
      else [EvError fName MsgHeaderSize]
      end
    else [EvError fName (MsgUnsupportedFlag (flag baseHeader))]
    end.

(** The loop of one worker thread over its files, lines 157-158. *)
Definition ProcessFiles (files : list (string * list byte)) : list Event :=
  files ≫= (fun f => ProcessOneFile f.1 f.2).

End Pipeline.

(** * Properties of the conversion loops *)

Import Init.Byte.

Section LoopFacts.

Variable src : list byte.
Hypothesis size_u32 : Z.of_nat (length src) < 2 ^ 32.

(** The 16-bit word at byte offset [off] of the payload. *)
Definition word16 (off : nat) : Z := le_combine (take 2 (drop off src)).
Definition word32 (off : nat) : Z := le_combine (take 4 (drop off src)).

Lemma word16_range off : 0 <= word16 off < 65536.
Proof.
  unfold word16. pose proof (le_combine_bound (take 2 (drop off src))) as H.
  assert (length (take 2 (drop off src)) <= 2)%nat as Hl
    by (rewrite length_take; lia).
  assert (2 ^ (8 * Z.of_nat (length (take 2 (drop off src)))) <= 2 ^ 16)
    by (apply Z.pow_le_mono_r; lia).
  change (2 ^ 16) with 65536 in *. lia.
Qed.




Lemma R32G8_done dst d :
  convert (mkConv 3 3 2 px_R32G8 step_R32G8) src dst = Some (Done d) ->
  exists n, length src = (3 * n)%nat /\ length d = length dst /\
    (forall k, (k < n)%nat ->
       d !! (2 * k)%nat = Some (scale_u16 (word16 (3 * k))) /\
       d !! (2 * k + 1)%nat = src !! (3 * k + 2)%nat) /\
    (forall p, (2 * n <= p)%nat -> d !! p = dst !! p).
Proof.
  intros H. apply (convert_done R32G8) in H as (n & Hn & Hlen & Hpx & Hrest);
    [|reflexivity|exact size_u32].
  cbn [c_stride c_width c_ch c_px] in *.
  exists n. repeat split; [exact Hn | exact Hlen | | | exact Hrest].
  - rewrite <- (Nat.add_0_r (2 * k)), (Hpx k 0%nat) by lia.
    unfold px_R32G8, word16. rewrite take_bytes_at0 by lia. reflexivity.
  - rewrite (Hpx k 1%nat) by lia.
    unfold px_R32G8. rewrite (take_bytes_at src _ 3 2 1) by lia.
    cbn [lookup list_lookup].
    destruct (drop (3 * k + 2) src) as [|b rest] eqn:E.
    + apply (f_equal length) in E. rewrite length_drop in E. cbn in E. lia.
    + rewrite <- (Nat.add_0_r (3 * k + 2)), <- lookup_drop, E.
      cbn. rewrite le_combine_1, byte.of_Z_unsigned. reflexivity.
Qed.

Lemma R24G8_done dst d :
  convert (mkConv 12 4 2 px_R24G8 step_R24G8) src dst = Some (Done d) ->
  exists n, length src = (12 * n)%nat /\ length d = length dst /\
    (forall k, (k < n)%nat ->
       d !! (2 * k)%nat = Some (scale_r24 (Z.land (word32 (12 * k)) 0xFFFFFF00)) /\
       d !! (2 * k + 1)%nat =
         Some (byte.of_Z (Z.land (wrap32 (Z.shiftl (word32 (12 * k)) 0x18)) 0xFF))) /\
    (forall p, (2 * n <= p)%nat -> d !! p = dst !! p).
Proof.
  intros H. apply (convert_done R24G8) in H as (n & Hn & Hlen & Hpx & Hrest);
    [|reflexivity|exact size_u32].
  cbn [c_stride c_width c_ch c_px] in *.
  exists n. repeat split; [exact Hn | exact Hlen | | | exact Hrest].
  - rewrite <- (Nat.add_0_r (2 * k)), (Hpx k 0%nat) by lia. reflexivity.
  - rewrite (Hpx k 1%nat) by lia. reflexivity.
Qed.

End LoopFacts.

(** ** The 16-bit layouts *)

(** RG16, lines 255-266: two channels per four payload bytes. *)


Definition ex_RG16_src : list byte := [xff; xff; x00; x00; x00; x80; x01; x01].




Definition ex_R16_src : list byte := [xff; xff; x12; x34; x00; x80; x56; x78].




(** ** Leaving the loops *)

(** A loop that exits has stored every pixel inside the allocation. *)
Lemma convert_done_fits (l : TCOLayout) (c : Conv) (src dst d : list byte) :
  conv_of l = Some c ->
  Z.of_nat (length src) < 2 ^ 32 ->
  convert c src dst = Some (Done d) ->
  (length src `mod` c_stride c = 0)%nat /\
  (c_ch c * (length src `div` c_stride c) <= length dst)%nat.
Proof.
  intros Hc Hsz Hrun.
  pose proof (conv_width_pos l c Hc src) as Hw.
  pose proof (conv_width_stride l c Hc src) as Hs.
  pose proof (conv_px_length l c Hc) as Hpx.
  apply (convert_done l c Hc src Hsz) in Hrun as (n & Hn & Hlen & Hlow & _).
  split; [rewrite Hn, Nat.mul_comm; apply Nat.Div0.mod_mul|].
  assert (length src `div` c_stride c = n)%nat as ->.
  { rewrite Hn, Nat.mul_comm. apply Nat.div_mul. lia. }
  destruct n as [|n]; [lia|].
  assert (0 < c_ch c)%nat as Hch by (destruct l; inversion Hc; subst; cbn; lia).
  specialize (Hlow n (c_ch c - 1)%nat ltac:(lia) ltac:(lia)).
  assert (is_Some (c_px c (take (c_width c) (drop (c_stride c * n) src))
                     !! (c_ch c - 1)%nat)) as [b Hb]
    by (apply lookup_lt_is_Some; rewrite Hpx; lia).
  rewrite Hb in Hlow. apply lookup_lt_Some in Hlow. lia.
Qed.

(** C10 as stated fails: an RG16 payload of 8 bytes, a multiple of the
    stride, with an allocation of 2 bytes does not leave the loop through
    its condition; the second iteration stores past the allocation. *)
Lemma C10_counterexample :
  ~ (forall (l : TCOLayout) (c : Conv) (src dst : list byte),
       conv_of l = Some c ->
       Z.of_nat (length src) < 2 ^ 32 ->
       ((exists d, convert c src dst = Some (Done d)) <->
        (length src `mod` c_stride c = 0)%nat)).
Proof.
  intros H.
  destruct (H RG16 (mkConv 4 4 2 px_RG16 step_RG16) ex_RG16_src [x00; x00]
              eq_refl ltac:(vm_compute; reflexivity)) as [_ Hexit].
  destruct (Hexit eq_refl) as [d Hd].
  assert (convert (mkConv 4 4 2 px_RG16 step_RG16) ex_RG16_src [x00; x00]
          = Some (Undefined WritePastEnd)) as Hrun by (vm_compute; reflexivity).
  rewrite Hrun in Hd. discriminate Hd.
Qed.

(** C10, as amended.  For RG16, R16, R32, R32G8 and R24G8 (strides 4, 4,
    4, 3 and 12 bytes) the loop is left through its condition exactly when
    the payload size is a multiple of the stride and the allocation holds
    the [size / stride] pixels the loop stores.  For any other size the
    pointer steps over the end without ever comparing equal to it, and for
    a multiple with more pixels than the allocation holds the loop stores
    past the allocation: either way the body leaves defined behaviour
    instead of the loop ending. *)
Theorem C10_loop_exit_needs_whole_strides
    (l : TCOLayout) (c : Conv) (src dst : list byte) :
  conv_of l = Some c ->
  Z.of_nat (length src) < 2 ^ 32 ->
  (l, c_stride c) ∈ [(RG16, 4%nat); (R16, 4%nat); (R32, 4%nat);
                     (R32G8, 3%nat); (R24G8, 12%nat)] /\
  ((exists d, convert c src dst = Some (Done d)) <->
   (length src `mod` c_stride c = 0)%nat /\
   (c_ch c * (length src `div` c_stride c) <= length dst)%nat) /\
  ((length src `mod` c_stride c <> 0)%nat ->
   exists f, convert c src dst = Some (Undefined f)) /\
  ((length dst < c_ch c * (length src `div` c_stride c))%nat ->
   exists f, convert c src dst = Some (Undefined f)).
Proof.
  intros Hc Hsz.
  assert (Hdone : forall d, convert c src dst = Some (Done d) ->
            (length src `mod` c_stride c = 0)%nat /\
            (c_ch c * (length src `div` c_stride c) <= length dst)%nat)
    by (intros d; apply (convert_done_fits l c src dst d Hc Hsz)).
  split; [|split; [|split]].
  - destruct l; inversion Hc; subst; cbn [c_stride]; repeat constructor.
  - split.
    + intros [d Hd]. exact (Hdone d Hd).
    + intros [Hmod Hcap]. apply Nat.Div0.div_exact in Hmod.
      now apply (convert_progress l c Hc src Hsz dst (length src `div` c_stride c)).
  - intros Hmod.
    destruct (convert_total l c Hc src Hsz dst) as [[d|f] Hoc]; [|eauto].
    apply Hdone in Hoc. tauto.
  - intros Hsmall.
    destruct (convert_total l c Hc src Hsz dst) as [[d|f] Hoc]; [|eauto].
    apply Hdone in Hoc. lia.
Qed.

Lemma C10_witness :
  (R32G8, 3%nat) ∈ [(RG16, 4%nat); (R16, 4%nat); (R32, 4%nat);
                    (R32G8, 3%nat); (R24G8, 12%nat)] /\
  (exists d, run [x01; x02; x03; x04; x05; x06]
                 (step_R32G8 [x01; x02; x03; x04; x05; x06]) [x00; x00; x00; x00]
             = Some (Done d)) /\
  (exists f, run [x01; x02; x03; x04; x05] (step_R32G8 [x01; x02; x03; x04; x05])
                 [x00; x00; x00; x00]
             = Some (Undefined f)) /\
  (exists f, run [x01; x02; x03; x04; x05; x06]
                 (step_R32G8 [x01; x02; x03; x04; x05; x06]) [x00; x00]
             = Some (Undefined f)).
Proof.
  pose (c := mkConv 3 3 2 px_R32G8 step_R32G8).
  destruct (C10_loop_exit_needs_whole_strides R32G8 c
              [x01; x02; x03; x04; x05; x06] [x00; x00; x00; x00]
              eq_refl ltac:(vm_compute; reflexivity)) as (Hs & Hex & _ & _).
  destruct (C10_loop_exit_needs_whole_strides R32G8 c
              [x01; x02; x03; x04; x05] [x00; x00; x00; x00]
              eq_refl ltac:(vm_compute; reflexivity)) as (_ & _ & Hun & _).
  destruct (C10_loop_exit_needs_whole_strides R32G8 c
              [x01; x02; x03; x04; x05; x06] [x00; x00]
              eq_refl ltac:(vm_compute; reflexivity)) as (_ & _ & _ & Hov).
  split; [exact Hs|]. split; [|split].
  - apply Hex. split; vm_compute; [reflexivity | lia].
  - apply Hun. vm_compute. discriminate.
  - apply Hov. vm_compute. lia.
Defined.

(** ** R24G8 *)

Definition ex_R24G8_src : list byte :=
  [xdd; xcc; xbb; xaa; x01; x02; x03; x04; x05; x06; x07; x08].

(** C1.  On the 12-byte payload whose first word is [0xAABBCCDD] the loop
    makes one iteration; the red mask is [0xAABBCC00] and rescales to 170,
    and the green byte stored is 0, not [0xDD]: the 32-bit left shift by 24
    clears the low byte before the mask is applied. *)
Theorem C1_R24G8_word_AABBCCDD :
  word32 ex_R24G8_src 0 = 0xAABBCCDD /\
  Z.land (word32 ex_R24G8_src 0) 0xFFFFFF00 = 0xAABBCC00 /\
  Z.land (wrap32 (Z.shiftl (word32 ex_R24G8_src 0) 0x18)) 0xFF = 0 /\
  run ex_R24G8_src (step_R24G8 ex_R24G8_src) [x11; x11] = Some (Done [xaa; x00]).
Proof. vm_compute. repeat split; reflexivity. Qed.

(** * Properties of the pipeline *)

(** The error kinds of the specification (section 7), and the kind each
    logged message falls under. *)
Inductive ErrorKind : Type :=
  | TruncatedHeader | UnsupportedFlag | HeaderSizeMismatch | DecompressionFailure
  | UnsupportedLayout | DecodeFailure | WriteFailure.

Definition kind_of (m : Message) : ErrorKind :=
  match m with
  | MsgIncomplete | MsgBaseHeader | MsgCompHeader | MsgTCOHeader => TruncatedHeader
  | MsgUnsupportedFlag _ => UnsupportedFlag
  | MsgHeaderSize => HeaderSizeMismatch
  | MsgDecompress => DecompressionFailure
  | MsgLayout _ => UnsupportedLayout
  | MsgScratchImage | MsgDecompressImage => DecodeFailure
  | MsgWrite => WriteFailure
  end.

Lemma field_bytes_at (data : list byte) (off n o k : nat) :
  (o + k <= n)%nat -> field (take n (drop off data)) o k = field data (off + o) k.
Proof. intros H. unfold field. now rewrite take_bytes_at. Qed.

Lemma Read_Some (T : Type) `{Pod T} (data : list byte) (buf : nat) (advance : bool) :
  (buf + sizeof T < length data)%nat ->
  Read T data buf advance =
  Some (overlay (take (sizeof T) (drop buf data)),
        if advance then (buf + sizeof T)%nat else buf).
Proof. intros Hlt. unfold Read. rewrite decide_False by lia. reflexivity. Qed.

Lemma Read_None (T : Type) `{Pod T} (data : list byte) (buf : nat) (advance : bool) :
  (length data <= buf + sizeof T)%nat -> Read T data buf advance = None.
Proof. intros Hle. unfold Read. now rewrite decide_True. Qed.

Section FileProps.

Variable LZ4_decompress_safe : list byte -> Z -> Z -> Z * list byte.
Variable DirectX_Decompress :
  list byte -> Z -> Z -> Z -> DXGI_FORMAT -> DXGI_FORMAT -> DxResult.
Variable stbi_write_tga : string -> Z -> Z -> Z -> list byte -> bool -> Z.
Variables junk_dec junk_out : nat -> byte.

Local Abbreviation ProcessOneFile :=
  (ProcessOneFile LZ4_decompress_safe DirectX_Decompress stbi_write_tga
                  junk_dec junk_out).
Local Abbreviation ProcessFiles :=
  (ProcessFiles LZ4_decompress_safe DirectX_Decompress stbi_write_tga
                junk_dec junk_out).
Local Abbreviation unpack := (unpack DirectX_Decompress junk_out).
Local Abbreviation DecompressBC := (DecompressBC DirectX_Decompress junk_out).
Local Abbreviation write_image := (write_image stbi_write_tga).

(** The headers of a file, and the contents of [pDecData] after the
    decompression call. *)
Definition comp_header (data : list byte) : CompressedDataHeader :=
  overlay (take 24 (drop 0 data)).
Definition tco_header (data : list byte) : TCOHeader :=
  overlay (take 24 (drop 24 data)).
Definition lz4_call (data : list byte) : Z * list byte :=
  LZ4_decompress_safe (drop 48 data)
    (to_int32 (compressedSize (comp_header data)))
    (to_int32 (decompressedSize (comp_header data))).
Definition decompressed (data : list byte) : list byte :=
  let fresh := new_array junk_dec (decompressedSize (comp_header data)) in
  let stored := (lz4_call data).2 in
  memcpy fresh stored (Nat.min (length stored) (length fresh)).

Lemma length_new_array junk n : length (new_array junk n) = Z.to_nat n.
Proof. unfold new_array. now rewrite length_fmap, length_seq. Qed.

Lemma length_memcpy buf from n :
  (n <= length from)%nat -> (n <= length buf)%nat ->
  length (memcpy buf from n) = length buf.
Proof.
  intros H1 H2. unfold memcpy.
  rewrite length_app, length_take, length_drop. lia.
Qed.

Lemma length_decompressed data :
  length (decompressed data) = Z.to_nat (decompressedSize (comp_header data)).
Proof.
  unfold decompressed. cbv zeta.
  rewrite length_memcpy by lia. apply length_new_array.
Qed.

(** A file with all three headers in place gets as far as the
    decompression call. *)
Lemma ProcessOneFile_headers_ok fName data :
  (48 < length data)%nat ->
  field data 0 4 = 4 ->
  field data 12 4 = 24 ->
  ProcessOneFile fName data =
  EvLZ4 (drop 48 data) (to_int32 (compressedSize (comp_header data)))
        (to_int32 (decompressedSize (comp_header data))) ::
  if decide ((lz4_call data).1 <= 0) then [EvError fName MsgDecompress]
  else
    let '(p8BitData, numChannels, evs) :=
      unpack fName (decompressed data) (tco_header data) in
    evs ++
    match p8BitData with
    | None => []
    | Some pixels => write_image fName (tco_header data) numChannels pixels
    end.
Proof.
  intros Hlen Hflag Hsize. unfold ProcessOneFile.
  rewrite decide_False by (intros ->; cbn in Hlen; lia).
  rewrite decide_False by (cbn; lia).
  rewrite (Read_Some BaseHeader) by (cbn; lia).
  cbn [overlay BaseHeader_pod flag sizeof].
  rewrite (field_bytes_at data 0 4 0 4) by lia. cbn [Nat.add].
  rewrite Hflag, decide_True by reflexivity.
  rewrite (Read_Some CompressedDataHeader) by (cbn; lia).
  cbn [sizeof CompressedDataHeader_pod TCOHeader_pod].
  change (dataHeaderSize (overlay (take 24 (drop 0 data))))
    with (field (take 24 (drop 0 data)) 12 4).
  rewrite (field_bytes_at data 0 24 12 4) by lia. cbn [Nat.add].
  rewrite Hsize, decide_True by reflexivity.
  rewrite (Read_Some TCOHeader) by (cbn; lia).
  cbn [sizeof TCOHeader_pod Nat.add].
  fold (comp_header data). fold (tco_header data).
  unfold decompressed, lz4_call.
  destruct (LZ4_decompress_safe _ _ _) as [res stored] eqn:E.
  cbn [fst snd]. reflexivity.
Qed.

(** ** Header reads *)

(** C2.  A header read succeeds exactly when strictly more bytes remain
    than the structure has, so a read that would end on the last byte
    fails.  A file of exactly 4 bytes, one of exactly 24 bytes with
    flag 4, and one of exactly 48 bytes with flag 4 and header size 24
    each end with one logged error of kind [TruncatedHeader]. *)
Theorem C2_header_reads_need_a_trailing_byte :
  (forall (T : Type) `{Pod T} (data : list byte) (buf : nat) (advance : bool),
     (is_Some (Read T data buf advance) <-> (sizeof T < length data - buf)%nat) /\
     ((length data - buf)%nat = sizeof T -> Read T data buf advance = None)) /\
  (forall (fName : string) (data : list byte),
     (length data = sizeof BaseHeader ->
      ProcessOneFile fName data = [EvError fName MsgIncomplete]) /\
     (length data = sizeof CompressedDataHeader -> field data 0 4 = 4 ->
      ProcessOneFile fName data = [EvError fName MsgCompHeader]) /\
     (length data = (sizeof CompressedDataHeader + sizeof TCOHeader)%nat ->
      field data 0 4 = 4 -> field data 12 4 = 24 ->
      ProcessOneFile fName data = [EvError fName MsgTCOHeader])) /\
  kind_of MsgIncomplete = TruncatedHeader /\
  kind_of MsgCompHeader = TruncatedHeader /\
  kind_of MsgTCOHeader = TruncatedHeader.
Proof.
  split; [|split; [|repeat split]].
  - intros T HT data buf advance. split.
    + unfold Read. case_decide as Hd; split.
      * intros [? ?]. discriminate.
      * lia.
      * lia.
      * eauto.
    + intros Hfit. apply Read_None. lia.
  - intros fName data. split; [|split].
    + cbn [sizeof BaseHeader_pod]. intros Hlen. unfold ProcessOneFile.
      rewrite decide_False by (intros ->; cbn in Hlen; lia).
      rewrite decide_True by (cbn; lia). reflexivity.
    + cbn [sizeof CompressedDataHeader_pod]. intros Hlen Hflag.
      unfold ProcessOneFile.
      rewrite decide_False by (intros ->; cbn in Hlen; lia).
      rewrite decide_False by (cbn; lia).
      rewrite (Read_Some BaseHeader) by (cbn; lia).
      cbn [overlay BaseHeader_pod flag sizeof].
      rewrite (field_bytes_at data 0 4 0 4) by lia. cbn [Nat.add].
      rewrite Hflag, decide_True by reflexivity.
      rewrite (Read_None CompressedDataHeader) by (cbn; lia). reflexivity.
    + cbn [sizeof CompressedDataHeader_pod TCOHeader_pod]. intros Hlen Hflag Hsize.
      unfold ProcessOneFile.
      rewrite decide_False by (intros ->; cbn in Hlen; lia).
      rewrite decide_False by (cbn; lia).
      rewrite (Read_Some BaseHeader) by (cbn; lia).
      cbn [overlay BaseHeader_pod flag sizeof].
      rewrite (field_bytes_at data 0 4 0 4) by lia. cbn [Nat.add].
      rewrite Hflag, decide_True by reflexivity.
      rewrite (Read_Some CompressedDataHeader) by (cbn; lia).
      cbn [sizeof CompressedDataHeader_pod TCOHeader_pod].
      change (dataHeaderSize (overlay (take 24 (drop 0 data))))
        with (field (take 24 (drop 0 data)) 12 4).
      rewrite (field_bytes_at data 0 24 12 4) by lia. cbn [Nat.add].
      rewrite Hsize, decide_True by reflexivity.
      rewrite (Read_None TCOHeader) by (cbn; lia). reflexivity.
Qed.

(** ** The type flag *)

(** C8.  A file that holds a base header (at least 24 bytes, the size
    the function asks for before it reads anything) whose flag is not 4
    produces the unsupported-flag error and nothing else: no
    decompression call, no conversion, no image.  In a batch the other
    files' effects are what they are without it. *)
Theorem C8_unsupported_flag_ends_the_file
    (fName : string) (data : list byte) (pre post : list (string * list byte)) :
  (sizeof TCOHeader <= length data)%nat ->
  field data 0 4 <> 4 ->
  ProcessOneFile fName data = [EvError fName (MsgUnsupportedFlag (field data 0 4))] /\
  kind_of (MsgUnsupportedFlag (field data 0 4)) = UnsupportedFlag /\
  written (ProcessOneFile fName data) = [] /\
  ProcessFiles (pre ++ (fName, data) :: post) =
    ProcessFiles pre ++ EvError fName (MsgUnsupportedFlag (field data 0 4))
                     :: ProcessFiles post /\
  written (ProcessFiles (pre ++ (fName, data) :: post)) =
    written (ProcessFiles (pre ++ post)).
Proof.
  cbn [sizeof TCOHeader_pod]. intros Hlen Hflag.
  assert (ProcessOneFile fName data =
          [EvError fName (MsgUnsupportedFlag (field data 0 4))]) as Hone.
  { unfold ProcessOneFile.
    rewrite decide_False by (intros ->; cbn in Hlen; lia).
    rewrite decide_False by (cbn; lia).
    rewrite (Read_Some BaseHeader) by (cbn; lia).
    cbn [overlay BaseHeader_pod flag sizeof].
    rewrite (field_bytes_at data 0 4 0 4) by lia. cbn [Nat.add].
    rewrite decide_False by exact Hflag. reflexivity. }
  assert (ProcessFiles (pre ++ (fName, data) :: post) =
          ProcessFiles pre ++ EvError fName (MsgUnsupportedFlag (field data 0 4))
                           :: ProcessFiles post) as Hall.
  { unfold ProcessFiles. rewrite bind_app, bind_cons.
    cbn [fst snd]. now rewrite Hone. }
  split; [exact Hone|]. split; [reflexivity|]. split; [now rewrite Hone|].
  split; [exact Hall|].
  rewrite Hall. unfold ProcessFiles, written.
  rewrite bind_app, !omap_app. reflexivity.
Qed.

(** ** The switch on the layout *)

(** The channel counts of the specification's layout table (section 4.3);
    the reserved tag has none. *)
Definition spec_channels (l : TCOLayout) : option Z :=
  match l with
  | BC1 | BC2 | BC3 | R11G11B10 | RGBA8 => Some 4
  | BC5 | RG16 | R32G8 | R24G8 => Some 2
  | BC4 | R16 | R32 | R8 => Some 1
  | _Not_Used_ => None
  end.

(** The layouts whose case hands [pDecData] itself to the writer. *)
Definition passthrough (l : TCOLayout) : bool :=
  match l with
  | R11G11B10 | RGBA8 | R8 => true
  | _ => false
  end.

Definition is_write (e : Event) : bool :=
  match e with EvWrite _ _ _ _ _ _ _ => true | _ => false end.

Lemma layout_of_tag_Some t l : layout_of_tag t = Some l -> t = layout_tag l.
Proof.
  unfold layout_of_tag.
  repeat match goal with
         | |- context [match ?x with _ => _ end] => destruct x
         end; intros [= <-]; reflexivity.
Qed.

Lemma layout_of_tag_tag l : layout_of_tag (layout_tag l) = Some l.
Proof. destruct l; reflexivity. Qed.

Lemma length_run_done (l : TCOLayout) (c : Conv) (src dst d : list byte) :
  conv_of l = Some c -> Z.of_nat (length src) < 2 ^ 32 ->
  run src (c_step c src) dst = Some (Done d) -> length d = length dst.
Proof.
  intros Hc Hsz Hrun.
  apply (convert_done l c Hc src Hsz) in Hrun as (n & _ & Hlen & _). exact Hlen.
Qed.

Lemma converted_case_Some (l : TCOLayout) (c : Conv) p hdr d ch evs :
  conv_of l = Some c -> Z.of_nat (length p) < 2 ^ 32 ->
  converted_case junk_out (Z.of_nat (c_ch c)) (c_step c) p hdr = (Some d, ch, evs) ->
  ch = Z.of_nat (c_ch c) /\ evs = [] /\
  Z.of_nat (length d) = wrap32 (wrap32 (width hdr * height hdr) * ch).
Proof.
  intros Hc Hsz. unfold converted_case.
  destruct (run p (c_step c p) _) as [[d'|f]|] eqn:Hrun; intros [= <- <- <-].
  split; [reflexivity|]. split; [reflexivity|].
  apply (length_run_done l c _ _ _ Hc Hsz) in Hrun.
  rewrite Hrun, length_new_array, Z2Nat.id; [reflexivity|].
  apply wrap32_range.
Qed.

Lemma DecompressBC_Some fName p hdr d ch evs :
  DecompressBC fName p hdr = (Some d, ch, evs) ->
  ch = (if decide (layout hdr = layout_tag BC4) then 1
        else if decide (layout hdr = layout_tag BC5) then 2 else 4) /\
  Z.of_nat (length d) = wrap32 (wrap32 (width hdr * height hdr) * ch) /\
  Forall (fun e => is_write e = false) evs.
Proof.
  unfold DecompressBC.
  set (ch0 := if decide (layout hdr = layout_tag BC4) then 1
              else if decide (layout hdr = layout_tag BC5) then 2 else 4).
  assert (0 <= ch0) as Hch0 by (unfold ch0; repeat case_decide; lia).
  destruct (bc_formats (layout hdr)) as [[sf df]|]; [|intros [=]].
  destruct (DirectX_Decompress _ _ _ _ _ _) as [| |pixels]; intros [= <- <- <-].
  split; [reflexivity|]. split.
  - rewrite length_memcpy by (rewrite ?length_new_array; lia).
    rewrite length_new_array, Z2Nat.id; [reflexivity | apply wrap32_range].
  - repeat constructor.
Qed.

(** The switch itself writes no image. *)
Lemma unpack_no_write fName p hdr o ch evs :
  unpack fName p hdr = (o, ch, evs) -> Forall (fun e => is_write e = false) evs.
Proof.
  unfold unpack, DecompressBC, converted_case.
  repeat match goal with
         | |- context [match ?x with _ => _ end] => destruct x
         end; intros [= <- <- <-]; repeat constructor.
Qed.

(** What the switch hands on when it hands on pixels. *)
Lemma unpack_Some fName p hdr d ch evs :
  Z.of_nat (length p) < 2 ^ 32 ->
  unpack fName p hdr = (Some d, ch, evs) ->
  exists l, layout_of_tag (layout hdr) = Some l /\
    spec_channels l = Some ch /\
    Forall (fun e => is_write e = false) evs /\
    (passthrough l = true -> d = p) /\
    (passthrough l = false ->
     Z.of_nat (length d) = wrap32 (wrap32 (width hdr * height hdr) * ch)).
Proof.
  intros Hsz. unfold unpack.
  destruct (layout_of_tag (layout hdr)) as [l|] eqn:Hl; [|intros [=]].
  pose proof (layout_of_tag_Some _ _ Hl) as Htag.
  destruct l; try (intros [=]; fail).
  1-5: intros H; apply DecompressBC_Some in H as (Hch & Hlen & Hev);
       rewrite Htag in Hch; cbn in Hch;
       eexists; (split; [reflexivity|]); subst ch;
       (split; [reflexivity|]); (split; [exact Hev|]);
       (split; [discriminate|]); intros _; exact Hlen.
  1,2,8: intros [= <- <- <-]; eexists; (split; [reflexivity|]);
       (split; [reflexivity|]); (split; [constructor|]);
       (split; [reflexivity|discriminate]).
  - intros H. apply (converted_case_Some RG16 (mkConv 4 4 2 px_RG16 step_RG16))
      in H as (-> & -> & Hlen); [|reflexivity|exact Hsz].
    eexists. split; [reflexivity|]. split; [reflexivity|]. split; [constructor|].
    split; [discriminate|]. intros _. exact Hlen.
  - intros H. apply (converted_case_Some R16 (mkConv 4 2 1 px_R16 step_R16))
      in H as (-> & -> & Hlen); [|reflexivity|exact Hsz].
    eexists. split; [reflexivity|]. split; [reflexivity|]. split; [constructor|].
    split; [discriminate|]. intros _. exact Hlen.
  - intros H. apply (converted_case_Some R32 (mkConv 4 2 1 px_R32 step_R32))
      in H as (-> & -> & Hlen); [|reflexivity|exact Hsz].
    eexists. split; [reflexivity|]. split; [reflexivity|]. split; [constructor|].
    split; [discriminate|]. intros _. exact Hlen.
  - intros H. apply (converted_case_Some R32G8 (mkConv 3 3 2 px_R32G8 step_R32G8))
      in H as (-> & -> & Hlen); [|reflexivity|exact Hsz].
    eexists. split; [reflexivity|]. split; [reflexivity|]. split; [constructor|].
    split; [discriminate|]. intros _. exact Hlen.
  - intros H. apply (converted_case_Some R24G8 (mkConv 12 4 2 px_R24G8 step_R24G8))
      in H as (-> & -> & Hlen); [|reflexivity|exact Hsz].
    eexists. split; [reflexivity|]. split; [reflexivity|]. split; [constructor|].
    split; [discriminate|]. intros _. exact Hlen.
Qed.

Lemma field_range (bs : list byte) (off n : nat) : 0 <= field bs off n < 2 ^ (8 * Z.of_nat n).
Proof.
  unfold field. pose proof (le_combine_bound (take n (drop off bs))) as H.
  assert (length (take n (drop off bs)) <= n)%nat by (rewrite length_take; lia).
  assert (2 ^ (8 * Z.of_nat (length (take n (drop off bs)))) <= 2 ^ (8 * Z.of_nat n))
    by (apply Z.pow_le_mono_r; lia).
  lia.
Qed.

Lemma decompressed_u32 data : Z.of_nat (length (decompressed data)) < 2 ^ 32.
Proof.
  rewrite length_decompressed.
  pose proof (field_range (take 24 (drop 0 data)) 20 4) as H.
  change (field (take 24 (drop 0 data)) 20 4)
    with (decompressedSize (comp_header data)) in H.
  change (2 ^ (8 * Z.of_nat 4)) with (2 ^ 32) in H. lia.
Qed.

(** A file is turned away before the decompression call with at most
    one logged error, unless its three headers are in place. *)
Lemma ProcessOneFile_rejected fName data :
  ~ ((48 < length data)%nat /\ field data 0 4 = 4 /\ field data 12 4 = 24) ->
  ProcessOneFile fName data = [] \/
  exists m, ProcessOneFile fName data = [EvError fName m].
Proof.
  intros Hno. unfold ProcessOneFile, Read.
  cbn [sizeof BaseHeader_pod CompressedDataHeader_pod TCOHeader_pod].
  case_decide; [now left|]. right.
  case_decide; [eauto|].
  rewrite decide_False by lia.
  cbn [overlay BaseHeader_pod flag].
  rewrite (field_bytes_at data 0 4 0 4) by lia. cbn [Nat.add].
  case_decide as Hflag; [|eauto].
  case_decide; [eauto|].
  change (dataHeaderSize (overlay (take 24 (drop 0 data))))
    with (field (take 24 (drop 0 data)) 12 4).
  rewrite (field_bytes_at data 0 24 12 4) by lia. cbn [Nat.add].
  case_decide as Hsize; [|eauto].
  case_decide; [eauto|].
  exfalso. apply Hno. split; [lia|]. split; [exact Hflag | exact Hsize].
Qed.

(** What the output stage does: one write call, with the error after it
    when the call fails, or nothing defined at all. *)
Lemma write_image_cases fName hdr ch pixels :
  (bool_value (flipV hdr) = None /\
   write_image fName hdr ch pixels = [EvUndefined InvalidBool]) \/
  (exists v, bool_value (flipV hdr) = Some v /\
     let r := stbi_write_tga (outName fName) (to_int32 (width hdr))
                (to_int32 (height hdr)) ch pixels (negb v) in
     write_image fName hdr ch pixels =
       EvWrite (outName fName) (to_int32 (width hdr)) (to_int32 (height hdr))
               ch pixels (negb v) r ::
       (if decide (r = 0) then [EvError fName MsgWrite] else [])).
Proof.
  unfold write_image. destruct (bool_value (flipV hdr)) as [v|].
  - right. exists v. split; reflexivity.
  - left. split; reflexivity.
Qed.

Lemma write_image_elem fName hdr ch pixels n w h c d f r :
  EvWrite n w h c d f r ∈ write_image fName hdr ch pixels ->
  n = outName fName /\ w = to_int32 (width hdr) /\ h = to_int32 (height hdr) /\
  c = ch /\ d = pixels /\ bool_value (flipV hdr) = Some (negb f) /\
  r = stbi_write_tga (outName fName) (to_int32 (width hdr)) (to_int32 (height hdr))
        ch pixels f.
Proof.
  destruct (write_image_cases fName hdr ch pixels) as [[_ ->]|(v & Hv & ->)];
    intros Hin.
  - apply list_elem_of_singleton in Hin. discriminate.
  - apply elem_of_cons in Hin as [Heq|Hin].
    + injection Heq as -> -> -> -> -> -> ->.
      rewrite negb_involutive. repeat split; try reflexivity. exact Hv.
    + case_decide; [apply list_elem_of_singleton in Hin; discriminate|].
      apply elem_of_nil in Hin. contradiction.
Qed.

(** Every image written comes out of the switch, after a successful
    decompression call on a file with its headers in place. *)
Lemma ProcessOneFile_write fName data n w h c d f r :
  EvWrite n w h c d f r ∈ ProcessOneFile fName data ->
  (48 < length data)%nat /\ field data 0 4 = 4 /\ field data 12 4 = 24 /\
  0 < (lz4_call data).1 /\
  (exists evs, unpack fName (decompressed data) (tco_header data) = (Some d, c, evs)) /\
  n = outName fName /\
  w = to_int32 (width (tco_header data)) /\
  h = to_int32 (height (tco_header data)) /\
  bool_value (flipV (tco_header data)) = Some (negb f) /\
  r = stbi_write_tga n w h c d f.
Proof.
  intros Hin.
  destruct (decide ((48 < length data)%nat /\ field data 0 4 = 4 /\
                    field data 12 4 = 24)) as [(Hlen & Hflag & Hsize)|Hno].
  - rewrite (ProcessOneFile_headers_ok fName data Hlen Hflag Hsize) in Hin.
    apply elem_of_cons in Hin as [[=]|Hin].
    case_decide as Hres.
    { apply list_elem_of_singleton in Hin. discriminate. }
    destruct (unpack fName (decompressed data) (tco_header data))
      as [[p8 ch] evs] eqn:Hun.
    apply elem_of_app in Hin as [Hin|Hin].
    { exfalso. apply unpack_no_write in Hun.
      rewrite Forall_forall in Hun. apply Hun in Hin. discriminate. }
    destruct p8 as [d'|]; [|apply elem_of_nil in Hin; contradiction].
    apply write_image_elem in Hin as (-> & -> & -> & -> & -> & Hb & ->).
    repeat split; try reflexivity; try assumption; [lia | eauto].
  - destruct (ProcessOneFile_rejected fName data Hno) as [E|[m E]];
      rewrite E in Hin.
    + apply elem_of_nil in Hin. contradiction.
    + apply list_elem_of_singleton in Hin. discriminate.
Qed.

(** ** What reaches the image writer *)

(** C6.  For a file tagged RGBA8, R8 or R11G11B10 the pixels handed to
    the image writer are the decompressed payload itself, byte for byte;
    the R11G11B10 tag is written with four channels, as RGBA8 is. *)
Theorem C6_passthrough_layouts_hand_on_the_payload
    (fName : string) (data : list byte) (l : TCOLayout)
    (n : string) (w h c : Z) (d : list byte) (f : bool) (r : Z) :
  EvWrite n w h c d f r ∈ ProcessOneFile fName data ->
  layout_of_tag (layout (tco_header data)) = Some l ->
  l ∈ [RGBA8; R8; R11G11B10] ->
  d = decompressed data /\ (l = R11G11B10 -> c = 4).
Proof.
  intros Hin Hl Hpass.
  apply ProcessOneFile_write in Hin as (_ & _ & _ & _ & [evs Hun] & _).
  apply unpack_Some in Hun as (l' & Hl' & Hch & _ & Hp & _);
    [|apply decompressed_u32].
  rewrite Hl in Hl'. injection Hl' as <-.
  split.
  - apply Hp. repeat (apply elem_of_cons in Hpass as [->|Hpass]; [reflexivity|]).
    apply elem_of_nil in Hpass. contradiction.
  - intros ->. cbn in Hch. congruence.
Qed.

(** C7.  The channel count handed to the image writer is the one the
    layout table gives for the file's tag: 4 for BC1, BC2, BC3,
    R11G11B10 and RGBA8, 2 for BC5, RG16, R32G8 and R24G8, 1 for BC4,
    R16, R32 and R8. *)
Theorem C7_channels_follow_the_tag
    (fName : string) (data : list byte)
    (n : string) (w h c : Z) (d : list byte) (f : bool) (r : Z) :
  EvWrite n w h c d f r ∈ ProcessOneFile fName data ->
  exists l, layout_of_tag (layout (tco_header data)) = Some l /\
            spec_channels l = Some c.
Proof.
  intros Hin.
  apply ProcessOneFile_write in Hin as (_ & _ & _ & _ & [evs Hun] & _).
  apply unpack_Some in Hun as (l & Hl & Hch & _); [|apply decompressed_u32].
  eauto.
Qed.

(** C9, as amended.  For a layout that allocates its output (the block
    layouts and the five converting ones) the buffer handed to the image
    writer has [width * height * channels] bytes, the product taken in
    32-bit unsigned arithmetic as the allocation takes it; for RGBA8, R8
    and R11G11B10 the buffer is the decompressed payload and has
    [decompressedSize] bytes, whatever the header's dimensions are. *)
Theorem C9_buffer_length
    (fName : string) (data : list byte)
    (n : string) (w h c : Z) (d : list byte) (f : bool) (r : Z) :
  EvWrite n w h c d f r ∈ ProcessOneFile fName data ->
  exists l, layout_of_tag (layout (tco_header data)) = Some l /\
    (passthrough l = true ->
     d = decompressed data /\
     Z.of_nat (length d) = decompressedSize (comp_header data)) /\
    (passthrough l = false ->
     Z.of_nat (length d) =
       wrap32 (wrap32 (width (tco_header data) * height (tco_header data)) * c) /\
     (width (tco_header data) * height (tco_header data) * c < 2 ^ 32 ->
      Z.of_nat (length d) =
        width (tco_header data) * height (tco_header data) * c)).
Proof.
  intros Hin.
  apply ProcessOneFile_write in Hin as (_ & _ & _ & _ & [evs Hun] & _).
  apply unpack_Some in Hun as (l & Hl & Hch & _ & Hp & Hq);
    [|apply decompressed_u32].
  exists l. split; [exact Hl|]. split.
  - intros Hpass. rewrite (Hp Hpass). split; [reflexivity|].
    rewrite length_decompressed, Z2Nat.id; [reflexivity|].
    apply (field_range (take 24 (drop 0 data)) 20 4).
  - intros Hpass. specialize (Hq Hpass). split; [exact Hq|].
    intros Hsmall. rewrite Hq.
    pose proof (field_range (take 24 (drop 24 data)) 4 4) as Hw.
    pose proof (field_range (take 24 (drop 24 data)) 8 4) as Hh.
    change (field (take 24 (drop 24 data)) 4 4) with (width (tco_header data)) in Hw.
    change (field (take 24 (drop 24 data)) 8 4) with (height (tco_header data)) in Hh.
    assert (1 <= c <= 4) as Hc by (destruct l; cbn in Hch; try discriminate;
                                   injection Hch as <-; lia).
    assert (0 <= width (tco_header data) * height (tco_header data)) by nia.
    assert (width (tco_header data) * height (tco_header data) < 2 ^ 32) by nia.
    rewrite (wrap32_small (_ * height _)) by lia.
    apply wrap32_small. nia.
Qed.

End FileProps.

(** * Example files *)

(** Stand-ins for the linked services.  [lz4_literal_run] decodes the LZ4
    blocks that are a single run of 1 to 14 literals (a token byte with
    the count in its high nibble, then the literals), on which it returns
    what [LZ4_decompress_safe] returns; every other input is an error. *)
Definition lz4_literal_run (src : list byte) (compressedSize dstCapacity : Z)
  : Z * list byte :=
  match src with
  | token :: rest =>
      let n := byte.unsigned token / 16 in
      if decide (0 < n < 15 /\ byte.unsigned token mod 16 = 0 /\
                 compressedSize = n + 1 /\ n <= dstCapacity /\
                 n <= Z.of_nat (length rest))
      then (n, take (Z.to_nat n) rest)
      else (-1, [])
  | [] => (-1, [])
  end.

Definition dx_unavailable
  : list byte -> Z -> Z -> Z -> DXGI_FORMAT -> DXGI_FORMAT -> DxResult :=
  fun _ _ _ _ _ _ => DxInitFailed.

Definition tga_ok : string -> Z -> Z -> Z -> list byte -> bool -> Z :=
  fun _ _ _ _ _ _ => 1.

Definition no_junk : nat -> byte := fun _ => x00.

(** The bytes of a TCO file with the given header fields. *)
Definition tco_file (flag dataHeaderSize compressedSize decompressedSize : Z)
    (width height layout numMips : Z) (flipV : byte) (compressed : list byte)
  : list byte :=
  le_split 4 flag ++ replicate 8 x00 ++ le_split 4 dataHeaderSize
  ++ le_split 4 compressedSize ++ le_split 4 decompressedSize
  ++ le_split 4 flag ++ le_split 4 width ++ le_split 4 height
  ++ le_split 4 layout ++ le_split 4 numMips ++ [flipV; x00; x00; x00]
  ++ compressed.

Definition example (fName : string) (data : list byte) : list Event :=
  ProcessOneFile lz4_literal_run dx_unavailable tga_ok no_junk no_junk fName data.

(** An RGBA8 file of 2 by 2 pixels whose payload is four bytes long. *)
Definition ex_rgba8_short : list byte :=
  tco_file 4 24 5 4 2 2 7 1 x00 [x40; x0a; x0b; x0c; x0d].

(** An RG16 file of 1 by 2 pixels. *)
Definition ex_rg16 : list byte :=
  tco_file 4 24 9 8 1 2 8 1 x01 [x80; xff; xff; x00; x00; x00; x80; x01; x01].

Lemma ex_rgba8_short_events :
  example "a.tco" ex_rgba8_short =
  [EvLZ4 [x40; x0a; x0b; x0c; x0d] 5 4;
   EvWrite "./Textures_OUT/a.tco.tga" 2 2 4 [x0a; x0b; x0c; x0d] true 1].
Proof. vm_compute. reflexivity. Qed.

Lemma ex_rg16_events :
  example "b.tco" ex_rg16 =
  [EvLZ4 [x80; xff; xff; x00; x00; x00; x80; x01; x01] 9 8;
   EvWrite "./Textures_OUT/b.tco.tga" 1 2 2 [xff; x00; x7f; x01] false 1].
Proof. vm_compute. reflexivity. Qed.

(** C9 as stated fails: the RGBA8 file above reaches the image writer with
    a four-byte buffer for 2 * 2 * 4 bytes of image. *)
Lemma C9_counterexample :
  ~ (forall (LZ4_decompress_safe : list byte -> Z -> Z -> Z * list byte)
            (DirectX_Decompress :
               list byte -> Z -> Z -> Z -> DXGI_FORMAT -> DXGI_FORMAT -> DxResult)
            (stbi_write_tga : string -> Z -> Z -> Z -> list byte -> bool -> Z)
            (junk_dec junk_out : nat -> byte)
            (fName : string) (data : list byte)
            (n : string) (w h c : Z) (d : list byte) (f : bool) (r : Z),
       EvWrite n w h c d f r ∈
         ProcessOneFile LZ4_decompress_safe DirectX_Decompress stbi_write_tga
                        junk_dec junk_out fName data ->
       Z.of_nat (length d) = w * h * c).
Proof.
  intros H.
  specialize (H lz4_literal_run dx_unavailable tga_ok no_junk no_junk
                "a.tco" ex_rgba8_short
                "./Textures_OUT/a.tco.tga" 2 2 4 [x0a; x0b; x0c; x0d] true 1).
  fold (example "a.tco" ex_rgba8_short) in H. rewrite ex_rgba8_short_events in H.
  assert (Z.of_nat (length [x0a; x0b; x0c; x0d]) = 2 * 2 * 4) as Habs
    by (apply H; repeat constructor).
  cbn in Habs. lia.
Qed.

Lemma C9_witness :
  exists l, layout_of_tag (layout (tco_header ex_rg16)) = Some l /\
    (passthrough l = true ->
     [xff; x00; x7f; x01] = decompressed lz4_literal_run no_junk ex_rg16 /\
     Z.of_nat (length [xff; x00; x7f; x01]) = decompressedSize (comp_header ex_rg16)) /\
    (passthrough l = false ->
     Z.of_nat (length [xff; x00; x7f; x01]) =
       wrap32 (wrap32 (width (tco_header ex_rg16) * height (tco_header ex_rg16)) * 2) /\
     (width (tco_header ex_rg16) * height (tco_header ex_rg16) * 2 < 2 ^ 32 ->
      Z.of_nat (length [xff; x00; x7f; x01]) =
        width (tco_header ex_rg16) * height (tco_header ex_rg16) * 2)).
Proof.
  apply (C9_buffer_length lz4_literal_run dx_unavailable tga_ok no_junk no_junk
           "b.tco" ex_rg16 "./Textures_OUT/b.tco.tga" 1 2 2 [xff; x00; x7f; x01] false 1).
  fold (example "b.tco" ex_rg16). rewrite ex_rg16_events. repeat constructor.
Defined.

Lemma C6_witness :
  [x0a; x0b; x0c; x0d] = decompressed lz4_literal_run no_junk ex_rgba8_short /\
  (RGBA8 = R11G11B10 -> 4 = 4).
Proof.
  apply (C6_passthrough_layouts_hand_on_the_payload
           lz4_literal_run dx_unavailable tga_ok no_junk no_junk
           "a.tco" ex_rgba8_short RGBA8
           "./Textures_OUT/a.tco.tga" 2 2 4 [x0a; x0b; x0c; x0d] true 1).
  - fold (example "a.tco" ex_rgba8_short). rewrite ex_rgba8_short_events.
    repeat constructor.
  - vm_compute. reflexivity.
  - repeat constructor.
Defined.

Lemma C7_witness :
  exists l, layout_of_tag (layout (tco_header ex_rg16)) = Some l /\
            spec_channels l = Some 2.
Proof.
  apply (C7_channels_follow_the_tag
           lz4_literal_run dx_unavailable tga_ok no_junk no_junk
           "b.tco" ex_rg16 "./Textures_OUT/b.tco.tga" 1 2 2 [xff; x00; x7f; x01] false 1).
  fold (example "b.tco" ex_rg16). rewrite ex_rg16_events. repeat constructor.
Defined.

(** A file of type 5, and a batch around it. *)
Definition ex_flag5 : list byte := tco_file 5 24 5 4 2 2 7 1 x00 [x40; x0a; x0b; x0c; x0d].

Lemma C8_witness :
  example "c.tco" ex_flag5 = [EvError "c.tco" (MsgUnsupportedFlag 5)] /\
  written (ProcessFiles lz4_literal_run dx_unavailable tga_ok no_junk no_junk
             [("a.tco", ex_rgba8_short); ("c.tco", ex_flag5); ("b.tco", ex_rg16)]) =
  written (ProcessFiles lz4_literal_run dx_unavailable tga_ok no_junk no_junk
             [("a.tco", ex_rgba8_short); ("b.tco", ex_rg16)]).
Proof.
  destruct (C8_unsupported_flag_ends_the_file
              lz4_literal_run dx_unavailable tga_ok no_junk no_junk
              "c.tco" ex_flag5 [("a.tco", ex_rgba8_short)] [("b.tco", ex_rg16)])
    as (Hone & _ & _ & _ & Hbatch).
  - vm_compute. lia.
  - vm_compute. discriminate.
  - split; [exact Hone | exact Hbatch].
Defined.

Lemma C2_witness :
  Read BaseHeader [x04; x00; x00; x00] 0 false = None /\
  example "d.tco" [x04; x00; x00; x00] = [EvError "d.tco" MsgIncomplete] /\
  example "d.tco" (take 24 ex_rg16) = [EvError "d.tco" MsgCompHeader] /\
  example "d.tco" (take 48 ex_rg16) = [EvError "d.tco" MsgTCOHeader].
Proof.
  destruct (C2_header_reads_need_a_trailing_byte
              lz4_literal_run dx_unavailable tga_ok no_junk no_junk)
    as (Hread & Hfile & _).
  split; [apply Hread; reflexivity|].
  split; [apply Hfile; reflexivity|].
  split; apply Hfile; vm_compute; reflexivity.
Defined.

(** * Further properties of the conversion loops *)

Lemma shifted_low_byte (pix : Z) : Z.land (wrap32 (Z.shiftl pix 0x18)) 0xFF = 0.
Proof.
  change 0xFF with (Z.ones 8). rewrite Z.land_ones by lia.
  unfold wrap32. rewrite Z.shiftl_mul_pow2 by lia.
  change (2 ^ 32) with (16777216 * 256). change (2 ^ 0x18) with 16777216.
  change (2 ^ 8) with 256.
  rewrite (Z.mul_comm pix), Z.mul_mod_distr_l by lia.
  replace (16777216 * (pix mod 256)) with (65536 * (pix mod 256) * 256) by lia.
  apply Z_mod_mult.
Qed.

(** X1.  When the R24G8 loop exits, the payload was [n] groups of 12
    bytes; pixel [k] holds the rescaled upper 24 bits of the first word of
    group [k] and a green byte of 0, whatever the word's low byte is. *)
Theorem R24G8_green_channel_is_dropped (src dst d : list byte) :
  Z.of_nat (length src) < 2 ^ 32 ->
  run src (step_R24G8 src) dst = Some (Done d) ->
  exists n, length src = (12 * n)%nat /\ length d = length dst /\
    forall k, (k < n)%nat ->
      d !! (2 * k)%nat = Some (scale_r24 (Z.land (word32 src (12 * k)) 0xFFFFFF00)) /\
      d !! (2 * k + 1)%nat = Some x00.
Proof.
  intros Hsz Hrun.
  apply R24G8_done in Hrun as (n & Hn & Hlen & Hpx & _); [|exact Hsz].
  exists n. split; [exact Hn|]. split; [exact Hlen|]. intros k Hk.
  destruct (Hpx k Hk) as [Hr Hg]. split; [exact Hr|].
  rewrite Hg, shifted_low_byte. reflexivity.
Qed.

Lemma R24G8_green_channel_witness :
  exists n, length ex_R24G8_src = (12 * n)%nat /\
    length [xaa; x00] = length [x11; x11] /\
    forall k, (k < n)%nat ->
      [xaa; x00] !! (2 * k)%nat
        = Some (scale_r24 (Z.land (word32 ex_R24G8_src (12 * k)) 0xFFFFFF00)) /\
      [xaa; x00] !! (2 * k + 1)%nat = Some x00.
Proof.
  apply (R24G8_green_channel_is_dropped ex_R24G8_src [x11; x11] [xaa; x00]).
  - vm_compute. reflexivity.
  - vm_compute. reflexivity.
Defined.

(** X2.  When the R32G8 loop exits, the payload was [n] groups of three
    bytes; pixel [k] holds [floor(v * 255 / 65535)] for the 16-bit value
    [v] at the start of group [k], and the group's third byte unchanged. *)
Theorem R32G8_red_rescaled_green_copied (src dst d : list byte) :
  Z.of_nat (length src) < 2 ^ 32 ->
  run src (step_R32G8 src) dst = Some (Done d) ->
  exists n, length src = (3 * n)%nat /\
    forall k, (k < n)%nat ->
      (exists r, d !! (2 * k)%nat = Some r /\
                 byte.unsigned r = spec_floor_scale (word16 src (3 * k))) /\
      d !! (2 * k + 1)%nat = src !! (3 * k + 2)%nat /\
      is_Some (src !! (3 * k + 2)%nat).
Proof.
  intros Hsz Hrun.
  apply R32G8_done in Hrun as (n & Hn & _ & Hpx & _); [|exact Hsz].
  exists n. split; [exact Hn|]. intros k Hk.
  destruct (Hpx k Hk) as [Hr Hg]. split; [|split; [exact Hg|]].
  - eexists. split; [exact Hr|]. apply scale_u16_floor, word16_range.
  - apply lookup_lt_is_Some. lia.
Qed.

Lemma R32G8_witness :
  exists n, length [xff; xff; x2a; x00; x80; x07] = (3 * n)%nat /\
    forall k, (k < n)%nat ->
      (exists r, [xff; x2a; x7f; x07] !! (2 * k)%nat = Some r /\
                 byte.unsigned r =
                   spec_floor_scale (word16 [xff; xff; x2a; x00; x80; x07] (3 * k))) /\
      [xff; x2a; x7f; x07] !! (2 * k + 1)%nat
        = [xff; xff; x2a; x00; x80; x07] !! (3 * k + 2)%nat /\
      is_Some ([xff; xff; x2a; x00; x80; x07] !! (3 * k + 2)%nat).
Proof.
  apply (R32G8_red_rescaled_green_copied [xff; xff; x2a; x00; x80; x07]
           [x00; x00; x00; x00] [xff; x2a; x7f; x07]).
  - vm_compute. reflexivity.
  - vm_compute. reflexivity.
Defined.

(** X3.  A conversion loop stores [size / stride] pixels and nothing
    else: the length of the destination is kept, and every byte after the
    last pixel is what the allocation held before the loop. *)
Theorem conversion_leaves_the_tail (l : TCOLayout) (c : Conv) (src dst d : list byte) :
  conv_of l = Some c ->
  Z.of_nat (length src) < 2 ^ 32 ->
  convert c src dst = Some (Done d) ->
  length d = length dst /\
  (c_ch c * (length src `div` c_stride c) <= length dst)%nat /\
  forall p, (c_ch c * (length src `div` c_stride c) <= p)%nat -> d !! p = dst !! p.
Proof.
  intros Hc Hsz Hrun.
  pose proof (conv_width_pos l c Hc src) as Hw.
  pose proof (conv_width_stride l c Hc src) as Hs.
  pose proof (conv_px_length l c Hc) as Hpx.
  apply (convert_done l c Hc src Hsz) in Hrun as (n & Hn & Hlen & Hlow & Hrest).
  assert (length src `div` c_stride c = n)%nat as ->.
  { rewrite Hn, Nat.mul_comm. apply Nat.div_mul. lia. }
  split; [exact Hlen|]. split; [|exact Hrest].
  destruct n as [|n]; [lia|].
  assert (0 < c_ch c)%nat as Hch by (destruct l; inversion Hc; subst; cbn; lia).
  specialize (Hlow n (c_ch c - 1)%nat ltac:(lia) ltac:(lia)).
  assert (is_Some (c_px c (take (c_width c) (drop (c_stride c * n) src))
                     !! (c_ch c - 1)%nat)) as [b Hb]
    by (apply lookup_lt_is_Some; rewrite Hpx; lia).
  rewrite Hb in Hlow. apply lookup_lt_Some in Hlow. lia.
Qed.

Lemma conversion_leaves_the_tail_witness :
  length [xff; x7f; x55] = length [x55; x55; x55] /\
  (1 * (length ex_R16_src `div` 4) <= length [x55; x55; x55])%nat /\
  forall p, (1 * (length ex_R16_src `div` 4) <= p)%nat ->
            [xff; x7f; x55] !! p = [x55; x55; x55] !! p.
Proof.
  apply (conversion_leaves_the_tail R16 (mkConv 4 2 1 px_R16 step_R16)
           ex_R16_src [x55; x55; x55] [xff; x7f; x55]).
  - reflexivity.
  - vm_compute. reflexivity.
  - vm_compute. reflexivity.
Defined.

(** X4.  A payload that holds more pixels than [width * height] gave room
    for makes the loop store past the end of [p8BitData]: the loop never
    completes, it leaves defined behaviour. *)
Theorem conversion_overruns_a_small_buffer
    (l : TCOLayout) (c : Conv) (src dst : list byte) :
  conv_of l = Some c ->
  Z.of_nat (length src) < 2 ^ 32 ->
  (length dst < c_ch c * (length src `div` c_stride c))%nat ->
  exists f, convert c src dst = Some (Undefined f).
Proof.
  intros Hc Hsz Hsmall.
  destruct (convert_total l c Hc src Hsz dst) as [[d|f] Hoc]; [|eauto].
  exfalso.
  pose proof (conv_width_pos l c Hc src) as Hw.
  pose proof (conv_width_stride l c Hc src) as Hs.
  pose proof (conv_px_length l c Hc) as Hpx.
  apply (convert_done l c Hc src Hsz) in Hoc as (n & Hn & Hlen & Hlow & _).
  assert (length src `div` c_stride c = n)%nat as E.
  { rewrite Hn, Nat.mul_comm. apply Nat.div_mul. lia. }
  rewrite E in Hsmall.
  destruct n as [|n]; [lia|].
  assert (0 < c_ch c)%nat as Hch by (destruct l; inversion Hc; subst; cbn; lia).
  specialize (Hlow n (c_ch c - 1)%nat ltac:(lia) ltac:(lia)).
  assert (is_Some (c_px c (take (c_width c) (drop (c_stride c * n) src))
                     !! (c_ch c - 1)%nat)) as [b Hb]
    by (apply lookup_lt_is_Some; rewrite Hpx; lia).
  rewrite Hb in Hlow. apply lookup_lt_Some in Hlow. lia.
Qed.

Lemma conversion_overruns_witness :
  exists f, convert (mkConv 4 4 2 px_RG16 step_RG16) ex_RG16_src [x00; x00]
            = Some (Undefined f).
Proof.
  apply (conversion_overruns_a_small_buffer RG16 (mkConv 4 4 2 px_RG16 step_RG16)
           ex_RG16_src [x00; x00]).
  - reflexivity.
  - vm_compute. reflexivity.
  - vm_compute. lia.
Defined.

(** * Further properties of the pipeline *)

(** The names [ToString] gives the enumerators, lines 58-91. *)

(** X5.  [ToString] gives the fourteen tags fourteen different names, none
    of them ["ERROR"], and gives every other integer ["ERROR"]. *)
Theorem ToString_names_the_tags :
  (forall l1 l2 : TCOLayout,
     ToString (layout_tag l1) = ToString (layout_tag l2) -> l1 = l2) /\
  (forall t : Z, ToString t = "ERROR"%string <-> layout_of_tag t = None) /\
  (forall t : Z, layout_of_tag t = None <-> ~ (0 <= t <= 13)).
Proof.
  split; [|split].
  - intros l1 l2. destruct l1, l2; cbn; intros H; try reflexivity; discriminate H.
  - intros t. unfold ToString.
    destruct (layout_of_tag t) as [[]|]; split; intros H;
      try reflexivity; discriminate H.
  - intros t. split.
    + intros H [H0 H13].
      assert (t = 0 \/ t = 1 \/ t = 2 \/ t = 3 \/ t = 4 \/ t = 5 \/ t = 6 \/ t = 7 \/
              t = 8 \/ t = 9 \/ t = 10 \/ t = 11 \/ t = 12 \/ t = 13) as Hc by lia.
      repeat (destruct Hc as [->|Hc]; [discriminate H|]). subst t. discriminate H.
    + intros H. destruct (layout_of_tag t) as [l|] eqn:E; [|reflexivity].
      exfalso. apply H. apply layout_of_tag_Some in E. subst t.
      destruct l; cbn; lia.
Qed.

(** The header fields as little-endian values at fixed file offsets. *)
Lemma compressedSize_field data : compressedSize (comp_header data) = field data 16 4.
Proof. apply (field_bytes_at data 0 24 16 4). lia. Qed.

Lemma decompressedSize_field data : decompressedSize (comp_header data) = field data 20 4.
Proof. apply (field_bytes_at data 0 24 20 4). lia. Qed.

Lemma width_field data : width (tco_header data) = field data 28 4.
Proof. apply (field_bytes_at data 24 24 4 4). lia. Qed.

Lemma height_field data : height (tco_header data) = field data 32 4.
Proof. apply (field_bytes_at data 24 24 8 4). lia. Qed.

Lemma layout_field data : layout (tco_header data) = to_int32 (field data 36 4).
Proof.
  unfold tco_header. cbn [overlay TCOHeader_pod layout]. f_equal.
  apply (field_bytes_at data 24 24 12 4). lia.
Qed.

Lemma numMips_field data : numMips (tco_header data) = field data 40 4.
Proof. apply (field_bytes_at data 24 24 16 4). lia. Qed.

Lemma flipV_field data : flipV (tco_header data) = field data 44 1.
Proof. apply (field_bytes_at data 24 24 20 1). lia. Qed.

Lemma bool_value_Some (b : Z) (v : bool) :
  bool_value b = Some v -> 0 <= b <= 1 /\ v = negb (b =? 0).
Proof.
  unfold bool_value. repeat case_decide; intros [= <-]; subst; split;
    try lia; reflexivity.
Qed.

Section MoreFileProps.

Variable LZ4_decompress_safe : list byte -> Z -> Z -> Z * list byte.
Variable DirectX_Decompress :
  list byte -> Z -> Z -> Z -> DXGI_FORMAT -> DXGI_FORMAT -> DxResult.
Variable stbi_write_tga : string -> Z -> Z -> Z -> list byte -> bool -> Z.
Variables junk_dec junk_out : nat -> byte.

Local Abbreviation ProcessOneFile :=
  (ProcessOneFile LZ4_decompress_safe DirectX_Decompress stbi_write_tga
                  junk_dec junk_out).
Local Abbreviation ProcessFiles :=
  (ProcessFiles LZ4_decompress_safe DirectX_Decompress stbi_write_tga
                junk_dec junk_out).
Local Abbreviation unpack := (unpack DirectX_Decompress junk_out).
Local Abbreviation DecompressBC := (DecompressBC DirectX_Decompress junk_out).
Local Abbreviation lz4_call := (lz4_call LZ4_decompress_safe).
Local Abbreviation decompressed := (decompressed LZ4_decompress_safe junk_dec).

(** X6.  An empty file is dropped without a word, and a file of 1 to 23
    bytes is reported as incomplete; neither is parsed, whatever its
    bytes are. *)
Theorem short_files_are_not_parsed (fName : string) (data : list byte) :
  (length data < 24)%nat ->
  ProcessOneFile fName data =
    if decide (data = []) then [] else [EvError fName MsgIncomplete].
Proof.
  intros Hlen. unfold ProcessOneFile.
  case_decide; [reflexivity|].
  rewrite decide_True by (cbn; lia). reflexivity.
Qed.

(** X7.  A file of type 4 whose [dataHeaderSize] is not 24 ends with the
    header-size error, before the TCO header is read and before any
    decompression. *)
Theorem header_size_mismatch_ends_the_file (fName : string) (data : list byte) :
  (24 < length data)%nat ->
  field data 0 4 = 4 ->
  field data 12 4 <> 24 ->
  ProcessOneFile fName data = [EvError fName MsgHeaderSize].
Proof.
  intros Hlen Hflag Hsize. unfold ProcessOneFile.
  rewrite decide_False by (intros ->; cbn in Hlen; lia).
  rewrite decide_False by (cbn; lia).
  rewrite (Read_Some BaseHeader) by (cbn; lia).
  cbn [overlay BaseHeader_pod flag sizeof].
  rewrite (field_bytes_at data 0 4 0 4) by lia. cbn [Nat.add].
  rewrite Hflag, decide_True by reflexivity.
  rewrite (Read_Some CompressedDataHeader) by (cbn; lia).
  cbn [sizeof CompressedDataHeader_pod TCOHeader_pod].
  change (dataHeaderSize (overlay (take 24 (drop 0 data))))
    with (field (take 24 (drop 0 data)) 12 4).
  rewrite (field_bytes_at data 0 24 12 4) by lia. cbn [Nat.add].
  rewrite decide_False by exact Hsize. reflexivity.
Qed.

(** X8.  With the three headers in place the decompression call is made
    on the bytes from offset 48 on, with the sizes stored at offsets 16
    and 20 converted to [int]; when it returns 0 or less the file ends
    with the decompression error and nothing is written. *)
Theorem failed_decompression_ends_the_file (fName : string) (data : list byte) :
  (48 < length data)%nat ->
  field data 0 4 = 4 ->
  field data 12 4 = 24 ->
  (LZ4_decompress_safe (drop 48 data) (to_int32 (field data 16 4))
                       (to_int32 (field data 20 4))).1 <= 0 ->
  ProcessOneFile fName data =
    [EvLZ4 (drop 48 data) (to_int32 (field data 16 4)) (to_int32 (field data 20 4));
     EvError fName MsgDecompress].
Proof.
  intros Hlen Hflag Hsize Hres.
  rewrite (ProcessOneFile_headers_ok _ _ _ _ _ fName data Hlen Hflag Hsize).
  unfold lz4_call. rewrite compressedSize_field, decompressedSize_field.
  rewrite decide_True by exact Hres. reflexivity.
Qed.

(** X9.  With the headers in place and a successful decompression, a
    layout tag that is the reserved 5 or no tag at all ends the file with
    the unsupported-layout error; the decompression call has been made by
    then, and nothing is written. *)
Theorem unsupported_layout_ends_the_file (fName : string) (data : list byte) :
  (48 < length data)%nat ->
  field data 0 4 = 4 ->
  field data 12 4 = 24 ->
  0 < (LZ4_decompress_safe (drop 48 data) (to_int32 (field data 16 4))
                           (to_int32 (field data 20 4))).1 ->
  to_int32 (field data 36 4) = 5 \/ ~ (0 <= to_int32 (field data 36 4) <= 13) ->
  ProcessOneFile fName data =
    [EvLZ4 (drop 48 data) (to_int32 (field data 16 4)) (to_int32 (field data 20 4));
     EvError fName (MsgLayout (to_int32 (field data 36 4)))] /\
  kind_of (MsgLayout (to_int32 (field data 36 4))) = UnsupportedLayout.
Proof.
  intros Hlen Hflag Hsize Hres Htag. split; [|reflexivity].
  rewrite (ProcessOneFile_headers_ok _ _ _ _ _ fName data Hlen Hflag Hsize).
  unfold lz4_call. rewrite compressedSize_field, decompressedSize_field.
  rewrite decide_False by lia.
  unfold unpack. rewrite layout_field.
  assert (layout_of_tag (to_int32 (field data 36 4)) = Some _Not_Used_ \/
          layout_of_tag (to_int32 (field data 36 4)) = None) as [-> | ->].
  { destruct Htag as [-> | Hout]; [now left|]. right.
    destruct (layout_of_tag _) as [l|] eqn:E; [|reflexivity].
    exfalso. apply Hout. apply layout_of_tag_Some in E. rewrite E.
    destruct l; cbn; lia. }
  - reflexivity.
  - reflexivity.
Qed.

(** X10.  Every image is written under the name
    [./Textures_OUT/<file name>.tga], with the header's width and height
    converted to [int].  The call is reached within defined behaviour only
    when the header's [flipV] byte is 0 or 1, the two values of a [bool],
    and the image is then flipped vertically exactly when the byte is 0. *)
Theorem written_name_size_and_orientation
    (fName : string) (data : list byte)
    (n : string) (w h c : Z) (d : list byte) (f : bool) (r : Z) :
  EvWrite n w h c d f r ∈ ProcessOneFile fName data ->
  n = ("./Textures_OUT/" +:+ fName +:+ ".tga")%string /\
  w = to_int32 (field data 28 4) /\
  h = to_int32 (field data 32 4) /\
  0 <= field data 44 1 <= 1 /\
  f = (field data 44 1 =? 0).
Proof.
  intros Hin.
  apply ProcessOneFile_write in Hin
    as (_ & _ & _ & _ & _ & -> & -> & -> & Hb & _).
  rewrite width_field, height_field. rewrite flipV_field in Hb.
  apply bool_value_Some in Hb as [Hrange Hf].
  repeat split; try lia.
  destruct f; destruct (field data 44 1 =? 0); cbn in Hf; congruence.
Qed.

(** The switch logs at most one error, and none when it hands on pixels. *)
Lemma unpack_counts fName p hdr o ch evs :
  unpack fName p hdr = (o, ch, evs) ->
  written evs = [] /\
  (length (errors evs) <= 1)%nat /\
  (is_Some o -> errors evs = []).
Proof.
  unfold unpack, DecompressBC, converted_case.
  repeat match goal with
         | |- context [match ?x with _ => _ end] => destruct x
         end; intros [= <- <- <-];
    (split; [reflexivity|]); (split; [cbn [errors omap list_omap length]; lia|]);
    first [ intros _; reflexivity | intros [? [=]] ].
Qed.

Lemma file_counts fName data :
  (length (errors (ProcessOneFile fName data)) +
   length (written (ProcessOneFile fName data)) <= 1)%nat.
Proof.
  destruct (decide ((48 < length data)%nat /\ field data 0 4 = 4 /\
                    field data 12 4 = 24)) as [(Hlen & Hflag & Hsize)|Hno].
  - rewrite (ProcessOneFile_headers_ok _ _ _ _ _ fName data Hlen Hflag Hsize).
    case_decide; [cbn; lia|].
    destruct (unpack fName (decompressed data) (tco_header data))
      as [[o ch] evs] eqn:Hun.
    apply unpack_counts in Hun as (Hw & He & Hs).
    unfold errors, written in *. cbn [omap list_omap].
    rewrite !omap_app, !length_app, Hw.
    destruct o as [d|].
    + rewrite (Hs ltac:(eauto)).
      destruct (write_image_cases stbi_write_tga fName (tco_header data) ch d)
        as [[_ ->]|(v & _ & ->)]; cbv zeta; cbn [omap list_omap length].
      * lia.
      * destruct (decide (stbi_write_tga _ _ _ _ _ _ = 0)) as [E|E]; cbn; lia.
    + cbn. lia.
  - destruct (ProcessOneFile_rejected LZ4_decompress_safe DirectX_Decompress
                stbi_write_tga junk_dec junk_out fName data Hno) as [E|[m E]];
      rewrite E; cbn; lia.
Qed.

(** X11.  A file yields one image or at most one logged error, never
    both and never two of either. *)
Theorem one_outcome_per_file (fName : string) (data : list byte) :
  (length (errors (ProcessOneFile fName data)) <= 1)%nat /\
  (length (written (ProcessOneFile fName data)) <= 1)%nat /\
  (written (ProcessOneFile fName data) <> [] -> errors (ProcessOneFile fName data) = []).
Proof.
  pose proof (file_counts fName data) as H.
  split; [lia|]. split; [lia|].
  intros Hw. destruct (written _); [contradiction|].
  destruct (errors _); [reflexivity|]. cbn in H. lia.
Qed.

(** X12.  Over a list of files the images written and the errors logged
    together never outnumber the files. *)
Theorem batch_outcomes_bounded (files : list (string * list byte)) :
  (length (written (ProcessFiles files)) + length (errors (ProcessFiles files))
   <= length files)%nat.
Proof.
  induction files as [|[fName data] files IH]; [cbn; lia|].
  unfold ProcessFiles in *. rewrite bind_cons. cbn [fst snd].
  unfold written, errors in *. rewrite !omap_app, !length_app.
  pose proof (file_counts fName data) as H. unfold written, errors in H.
  cbn [length]. lia.
Qed.

(** X13.  When the image writer reports failure the write error is
    logged after the call and the file counts as not written. *)
Theorem failed_write_is_logged
    (fName : string) (data : list byte)
    (n : string) (w h c : Z) (d : list byte) (f : bool) :
  EvWrite n w h c d f 0 ∈ ProcessOneFile fName data ->
  EvError fName MsgWrite ∈ ProcessOneFile fName data /\
  written (ProcessOneFile fName data) = [].
Proof.
  intros Hin.
  pose proof Hin as Hw.
  apply ProcessOneFile_write in Hw
    as (Hlen & Hflag & Hsize & Hres & [evs Hun] & -> & -> & -> & Hb & Hr).
  rewrite (ProcessOneFile_headers_ok _ _ _ _ _ fName data Hlen Hflag Hsize) in *.
  rewrite decide_False in * by lia. rewrite Hun in *.
  pose proof (unpack_counts _ _ _ _ _ _ Hun) as (Hwr & _ & _).
  destruct (write_image_cases stbi_write_tga fName (tco_header data) c d)
    as [[Hnone _]|(v & Hv & Hwi)]; [congruence|].
  assert (v = negb f) as -> by congruence.
  cbv zeta in Hwi. rewrite negb_involutive in Hwi.
  rewrite <- Hr in Hwi. rewrite decide_True in Hwi by reflexivity.
  rewrite Hwi. split.
  - apply elem_of_cons. right. apply elem_of_app. right.
    apply elem_of_cons. right. apply elem_of_cons. now left.
  - unfold written in *. cbn [omap list_omap]. rewrite omap_app, Hwr.
    cbn [omap list_omap]. rewrite decide_True by reflexivity. reflexivity.
Qed.

(** The switch never runs a loop out of fuel. *)
Lemma unpack_no_hang fName p hdr o ch evs :
  Z.of_nat (length p) < 2 ^ 32 ->
  unpack fName p hdr = (o, ch, evs) -> EvHang ∉ evs.
Proof.
  intros Hsz. unfold unpack.
  assert (Hconv : forall l c numChannels,
            conv_of l = Some c ->
            converted_case junk_out numChannels (c_step c) p hdr = (o, ch, evs) ->
            EvHang ∉ evs).
  { intros l c nc Hc. unfold converted_case.
    destruct (convert_total l c Hc p Hsz
                (new_array junk_out
                   (wrap32 (wrap32 (width hdr * height hdr) * nc)))) as [oc Hoc].
    unfold convert in Hoc. rewrite Hoc. destruct oc; intros [= <- <- <-];
      intros Hin; repeat (apply elem_of_cons in Hin as [[=]|Hin]);
      apply elem_of_nil in Hin; exact Hin. }
  destruct (layout_of_tag (layout hdr)) as [[]|].
  1-5: unfold DecompressBC;
       repeat match goal with
              | |- context [match ?x with _ => _ end] => destruct x
              end; intros [= <- <- <-] Hin;
       repeat (apply elem_of_cons in Hin as [[=]|Hin]);
       apply elem_of_nil in Hin; exact Hin.
  1,2,3,9,10: intros [= <- <- <-] Hin;
       repeat (apply elem_of_cons in Hin as [[=]|Hin]);
       apply elem_of_nil in Hin; exact Hin.
  - apply (Hconv RG16 (mkConv 4 4 2 px_RG16 step_RG16)). reflexivity.
  - apply (Hconv R16 (mkConv 4 2 1 px_R16 step_R16)). reflexivity.
  - apply (Hconv R32 (mkConv 4 2 1 px_R32 step_R32)). reflexivity.
  - apply (Hconv R32G8 (mkConv 3 3 2 px_R32G8 step_R32G8)). reflexivity.
  - apply (Hconv R24G8 (mkConv 12 4 2 px_R24G8 step_R24G8)). reflexivity.
Qed.

(** X14.  Processing a file never leaves a conversion loop unfinished:
    each loop exits, or runs into an access outside its buffers, within
    one iteration more than the payload has bytes. *)
Theorem conversion_loops_always_finish (fName : string) (data : list byte) :
  EvHang ∉ ProcessOneFile fName data.
Proof.
  destruct (decide ((48 < length data)%nat /\ field data 0 4 = 4 /\
                    field data 12 4 = 24)) as [(Hlen & Hflag & Hsize)|Hno].
  - rewrite (ProcessOneFile_headers_ok _ _ _ _ _ fName data Hlen Hflag Hsize).
    intros Hin. apply elem_of_cons in Hin as [[=]|Hin].
    case_decide.
    { apply list_elem_of_singleton in Hin. discriminate. }
    destruct (unpack fName (decompressed data) (tco_header data))
      as [[o ch] evs] eqn:Hun.
    apply unpack_no_hang in Hun; [|apply decompressed_u32].
    apply elem_of_app in Hin as [Hin|Hin]; [contradiction|].
    destruct o as [d|]; [|apply elem_of_nil in Hin; exact Hin].
    destruct (write_image_cases stbi_write_tga fName (tco_header data) ch d)
      as [[_ E]|(v & _ & E)]; rewrite E in Hin.
    { apply list_elem_of_singleton in Hin. discriminate. }
    cbv zeta in Hin. apply elem_of_cons in Hin as [[=]|Hin].
    case_decide; [apply list_elem_of_singleton in Hin; discriminate|].
    apply elem_of_nil in Hin. exact Hin.
  - destruct (ProcessOneFile_rejected LZ4_decompress_safe DirectX_Decompress
                stbi_write_tga junk_dec junk_out fName data Hno) as [E|[m E]];
      rewrite E; intros Hin.
    + apply elem_of_nil in Hin. exact Hin.
    + apply list_elem_of_singleton in Hin. discriminate.
Qed.

(** X15.  When [DecompressBC] returns pixels, the layout is one of
    BC1..BC5, the decoder produced an image, and the buffer has
    [width * height * numChannels] bytes (32-bit product): the first
    [min(slicePitch, size)] are the decoder's, the rest is untouched
    allocation. *)
Theorem DecompressBC_copies_the_decoded_image
    (fName : string) (source : list byte) (hdr : TCOHeader)
    (d : list byte) (ch : Z) (evs : list Event) :
  DecompressBC fName source hdr = (Some d, ch, evs) ->
  exists sf df pixels,
    bc_formats (layout hdr) = Some (sf, df) /\
    DirectX_Decompress source (width hdr) (height hdr) (numMips hdr) sf df
      = DxImage pixels /\
    evs = [EvDirectX source (width hdr) (height hdr) (numMips hdr) sf df] /\
    let size := Z.to_nat (wrap32 (wrap32 (width hdr * height hdr) * ch)) in
    let n := Nat.min (length pixels) size in
    length d = size /\ take n d = take n pixels /\
    drop n d = drop n (new_array junk_out (Z.of_nat size)).
Proof.
  unfold DecompressBC.
  set (ch0 := if decide (layout hdr = layout_tag BC4) then 1
              else if decide (layout hdr = layout_tag BC5) then 2 else 4).
  destruct (bc_formats (layout hdr)) as [[sf df]|]; [|intros [=]].
  destruct (DirectX_Decompress _ _ _ _ _ _) as [| |pixels] eqn:Hdx;
    intros [= <- <- <-].
  exists sf, df, pixels. split; [reflexivity|]. split; [exact Hdx|].
  split; [reflexivity|]. cbv zeta.
  rewrite Z2Nat.id by apply wrap32_range.
  set (size := wrap32 (wrap32 (width hdr * height hdr) * ch0)).
  assert (length (new_array junk_out size) = Z.to_nat size) as Hlen
    by apply length_new_array.
  unfold memcpy. split; [|split].
  - rewrite length_app, length_take, length_drop. lia.
  - rewrite take_app_le by (rewrite length_take; lia).
    rewrite take_take. f_equal. lia.
  - rewrite drop_app_ge by (rewrite length_take; lia).
    rewrite length_take, drop_drop. f_equal. lia.
Qed.

(** X16.  When the block decoder fails, at set-up or while decoding, the
    file ends with one logged error of kind [DecodeFailure] and nothing
    is written. *)
Theorem block_decode_failure_ends_the_file
    (fName : string) (data : list byte) (sf df : DXGI_FORMAT) :
  (48 < length data)%nat ->
  field data 0 4 = 4 ->
  field data 12 4 = 24 ->
  0 < (lz4_call data).1 ->
  bc_formats (layout (tco_header data)) = Some (sf, df) ->
  (forall pixels,
     DirectX_Decompress (decompressed data) (width (tco_header data))
       (height (tco_header data)) (numMips (tco_header data)) sf df
     <> DxImage pixels) ->
  exists m,
    ProcessOneFile fName data =
      [EvLZ4 (drop 48 data) (to_int32 (compressedSize (comp_header data)))
             (to_int32 (decompressedSize (comp_header data)));
       EvDirectX (decompressed data) (width (tco_header data))
                 (height (tco_header data)) (numMips (tco_header data)) sf df;
       EvError fName m] /\
    kind_of m = DecodeFailure /\
    written (ProcessOneFile fName data) = [].
Proof.
  intros Hlen Hflag Hsize Hres Hfmt Hfail.
  rewrite (ProcessOneFile_headers_ok _ _ _ _ _ fName data Hlen Hflag Hsize).
  rewrite decide_False by lia.
  assert (unpack fName (decompressed data) (tco_header data) =
          DecompressBC fName (decompressed data) (tco_header data)) as ->.
  { unfold unpack. unfold bc_formats in Hfmt.
    destruct (layout_of_tag (layout (tco_header data))) as [[]|];
      try discriminate Hfmt; reflexivity. }
  unfold DecompressBC. rewrite Hfmt.
  destruct (DirectX_Decompress _ _ _ _ _ _) as [| |pixels] eqn:Hdx.
  - eexists. split; [reflexivity|]. split; reflexivity.
  - eexists. split; [reflexivity|]. split; reflexivity.
  - exfalso. exact (Hfail pixels eq_refl).
Qed.

End MoreFileProps.

(** ** Header fields *)

Lemma le_split_4 (v : Z) :
  le_split 4 v = [byte.of_Z v; byte.of_Z (Z.shiftr v 8);
                  byte.of_Z (Z.shiftr (Z.shiftr v 8) 8);
                  byte.of_Z (Z.shiftr (Z.shiftr (Z.shiftr v 8) 8) 8)].
Proof. reflexivity. Qed.

Lemma le_combine_le_split_4 (v : Z) :
  0 <= v < 2 ^ 32 ->
  le_combine [byte.of_Z v; byte.of_Z (Z.shiftr v 8);
              byte.of_Z (Z.shiftr (Z.shiftr v 8) 8);
              byte.of_Z (Z.shiftr (Z.shiftr (Z.shiftr v 8) 8) 8)] = v.
Proof.
  intros Hv. change (le_combine (le_split 4 v) = v).
  rewrite le_combine_split. apply Z.mod_small. exact Hv.
Qed.

Lemma to_int32_wrap (t : Z) :
  - 2 ^ 31 <= t < 2 ^ 31 ->
  to_int32 (le_combine [byte.of_Z t; byte.of_Z (Z.shiftr t 8);
                        byte.of_Z (Z.shiftr (Z.shiftr t 8) 8);
                        byte.of_Z (Z.shiftr (Z.shiftr (Z.shiftr t 8) 8) 8)]) = t.
Proof.
  intros Ht. change (to_int32 (le_combine (le_split 4 t)) = t).
  rewrite le_combine_split. unfold to_int32.
  change (2 ^ (Z.of_nat 4 * 8)) with 4294967296.
  change (2 ^ 31) with 2147483648 in *. change (2 ^ 32) with 4294967296.
  Z.to_euclidean_division_equations. lia.
Qed.

(** X17.  Reading back a file laid out as the three structures are (flag
    at 0, header size at 12, sizes at 16 and 20, then flag, width, height,
    layout, mip count and the [flipV] byte from 24 on) gives every field
    the value that was stored, and leaves the read pointer at offset 48,
    where the compressed bytes start. *)
Theorem header_fields_round_trip
    (tflag hsize csize dsize w h tag mips : Z) (fv : byte) (compressed : list byte) :
  0 <= tflag < 2 ^ 32 -> 0 <= hsize < 2 ^ 32 ->
  0 <= csize < 2 ^ 32 -> 0 <= dsize < 2 ^ 32 ->
  0 <= w < 2 ^ 32 -> 0 <= h < 2 ^ 32 ->
  - 2 ^ 31 <= tag < 2 ^ 31 -> 0 <= mips < 2 ^ 32 ->
  compressed <> [] ->
  let data := tco_file tflag hsize csize dsize w h tag mips fv compressed in
  Read BaseHeader data 0 false = Some (mkBaseHeader tflag, 0%nat) /\
  Read CompressedDataHeader data 0 true =
    Some (mkCompressedDataHeader (mkBaseHeader tflag) (replicate 8 x00)
            hsize csize dsize, 24%nat) /\
  Read TCOHeader data 24 true =
    Some (mkTCOHeader (mkBaseHeader tflag) w h tag mips
            (byte.unsigned fv) [x00; x00; x00], 48%nat) /\
  drop 48 data = compressed.
Proof.
  intros Hf Hhs Hcs Hds Hw Hh Ht Hm Hne data.
  assert (48 < length data)%nat as Hlen.
  { unfold data, tco_file. rewrite !length_app, !length_le_split, length_replicate.
    destruct compressed; [contradiction|]. cbn [length]. lia. }
  split; [|split; [|split]].
  - rewrite (Read_Some BaseHeader) by (cbn [sizeof BaseHeader_pod]; lia).
    unfold data, tco_file. rewrite !le_split_4.
    cbn [sizeof overlay BaseHeader_pod app replicate firstn skipn].
    unfold field. cbn [firstn skipn].
    now rewrite le_combine_le_split_4.
  - rewrite (Read_Some CompressedDataHeader)
      by (cbn [sizeof CompressedDataHeader_pod]; lia).
    unfold data, tco_file. rewrite !le_split_4.
    cbn [sizeof overlay CompressedDataHeader_pod app replicate firstn skipn].
    unfold field. cbn [firstn skipn Nat.add].
    now rewrite !le_combine_le_split_4.
  - rewrite (Read_Some TCOHeader) by (cbn [sizeof TCOHeader_pod]; lia).
    unfold data, tco_file. rewrite !le_split_4.
    cbn [sizeof overlay TCOHeader_pod app replicate firstn skipn].
    unfold field. cbn [firstn skipn Nat.add].
    rewrite to_int32_wrap by assumption.
    rewrite !le_combine_le_split_4, le_combine_1 by assumption.
    reflexivity.
  - unfold data, tco_file. rewrite !le_split_4. reflexivity.
Qed.

Lemma header_fields_witness :
  Read TCOHeader ex_rg16 24 true =
    Some (mkTCOHeader (mkBaseHeader 4) 1 2 8 1 (byte.unsigned x01)
            [x00; x00; x00], 48%nat) /\
  drop 48 ex_rg16 = [x80; xff; xff; x00; x00; x00; x80; x01; x01].
Proof.
  destruct (header_fields_round_trip 4 24 9 8 1 2 8 1 x01
              [x80; xff; xff; x00; x00; x00; x80; x01; x01])
    as (_ & _ & Htco & Hrest);
    try (vm_compute; split; [discriminate | reflexivity]).
  - discriminate.
  - split; [exact Htco | exact Hrest].
Defined.

(** * The partition of the file list in [main] *)

(** Lines 148-158: [chunkSize], and the [startIndex] and [endIndex] of
    thread [i].  The counts are far below the range of [uint64]. *)
Definition chunkSize (fileCount numThreads : nat) : nat :=
  ((fileCount + numThreads - 1) / numThreads)%nat.

Definition startIndex (fileCount numThreads i : nat) : nat :=
  (i * chunkSize fileCount numThreads)%nat.

Definition endIndex (fileCount numThreads i : nat) : nat :=
  Nat.min (startIndex fileCount numThreads i + chunkSize fileCount numThreads)
          fileCount.

(** The files thread [i] passes to [ProcessOneFile], in order: those at
    the indices from [startIndex] up to, not including, [endIndex]. *)
Definition thread_files {A : Type} (files : list A) (numThreads i : nat) : list A :=
  take (endIndex (length files) numThreads i - startIndex (length files) numThreads i)
       (drop (startIndex (length files) numThreads i) files).

Lemma thread_files_chunk {A : Type} (files : list A) (numThreads i : nat) :
  thread_files files numThreads i =
  take (chunkSize (length files) numThreads)
       (drop (i * chunkSize (length files) numThreads) files).
Proof.
  unfold thread_files, endIndex, startIndex.
  set (c := chunkSize (length files) numThreads).
  destruct (Nat.le_gt_cases (i * c + c) (length files)) as [Hle|Hgt].
  - f_equal. lia.
  - rewrite Nat.min_r by lia.
    rewrite !take_ge; [reflexivity | |]; rewrite length_drop; lia.
Qed.

Lemma chunks_cover (fileCount numThreads : nat) :
  (0 < numThreads)%nat ->
  (fileCount <= numThreads * chunkSize fileCount numThreads)%nat.
Proof.
  intros Hn. unfold chunkSize.
  pose proof (Nat.div_mod (fileCount + numThreads - 1) numThreads ltac:(lia)) as Hd.
  pose proof (Nat.mod_upper_bound (fileCount + numThreads - 1) numThreads ltac:(lia)).
  lia.
Qed.

Lemma threads_prefix {A : Type} (files : list A) (numThreads n : nat) :
  concat ((thread_files files numThreads) <$> seq 0 n) =
  take (n * chunkSize (length files) numThreads) files.
Proof.
  induction n as [|n IH]; [reflexivity|].
  rewrite seq_S, fmap_app, concat_app, IH. cbn [fmap list_fmap concat Nat.add].
  rewrite app_nil_r, thread_files_chunk, take_take_drop.
  f_equal. lia.
Qed.

(** X18.  The threads' index ranges cut the file list into consecutive
    pieces: taken in thread order they are the whole list, so every file
    is handed to [ProcessOneFile] exactly once. *)
Theorem threads_partition_the_files {A : Type} (files : list A) (numThreads : nat) :
  (0 < numThreads)%nat ->
  concat ((thread_files files numThreads) <$> seq 0 numThreads) = files.
Proof.
  intros Hn. rewrite threads_prefix. apply take_ge.
  apply chunks_cover. exact Hn.
Qed.

Lemma threads_partition_witness :
  concat ((thread_files [1; 2; 3; 4; 5; 6; 7]%nat 3) <$> seq 0 3)
  = [1; 2; 3; 4; 5; 6; 7]%nat /\
  (thread_files [1; 2; 3; 4; 5; 6; 7]%nat 3) <$> seq 0 3
  = [[1; 2; 3]; [4; 5; 6]; [7]]%nat.
Proof.
  split; [|reflexivity].
  apply (threads_partition_the_files [1; 2; 3; 4; 5; 6; 7]%nat 3). lia.
Defined.

(** * More example files *)

Definition tga_fails : string -> Z -> Z -> Z -> list byte -> bool -> Z :=
  fun _ _ _ _ _ _ => 0.

Definition dx_two_bytes
  : list byte -> Z -> Z -> Z -> DXGI_FORMAT -> DXGI_FORMAT -> DxResult :=
  fun _ _ _ _ _ _ => DxImage [x01; x02].

(** A header size of 16, an LZ4 block that is no literal run, the reserved
    layout 5, and a BC1 file. *)
Definition ex_bad_size : list byte :=
  tco_file 4 16 5 4 2 2 7 1 x00 [x40; x0a; x0b; x0c; x0d].
Definition ex_bad_block : list byte :=
  tco_file 4 24 5 4 2 2 7 1 x00 [x00; x0a; x0b; x0c; x0d].
Definition ex_reserved : list byte :=
  tco_file 4 24 5 4 2 2 5 1 x00 [x40; x0a; x0b; x0c; x0d].
Definition ex_bc1 : list byte :=
  tco_file 4 24 5 4 4 4 0 1 x00 [x40; x0a; x0b; x0c; x0d].

Lemma short_files_witness :
  example "s.tco" [x04; x00] = [EvError "s.tco" MsgIncomplete].
Proof.
  exact (short_files_are_not_parsed lz4_literal_run dx_unavailable tga_ok
           no_junk no_junk "s.tco" [x04; x00] ltac:(cbn; lia)).
Defined.

Lemma header_size_mismatch_witness :
  example "t.tco" ex_bad_size = [EvError "t.tco" MsgHeaderSize].
Proof.
  apply (header_size_mismatch_ends_the_file lz4_literal_run dx_unavailable tga_ok
           no_junk no_junk "t.tco" ex_bad_size).
  - vm_compute. lia.
  - vm_compute. reflexivity.
  - vm_compute. discriminate.
Defined.

Lemma failed_decompression_witness :
  example "u.tco" ex_bad_block =
  [EvLZ4 (drop 48 ex_bad_block) (to_int32 (field ex_bad_block 16 4))
         (to_int32 (field ex_bad_block 20 4));
   EvError "u.tco" MsgDecompress].
Proof.
  apply (failed_decompression_ends_the_file lz4_literal_run dx_unavailable tga_ok
           no_junk no_junk "u.tco" ex_bad_block).
  - vm_compute. lia.
  - vm_compute. reflexivity.
  - vm_compute. reflexivity.
  - vm_compute. discriminate.
Defined.

Lemma unsupported_layout_witness :
  example "v.tco" ex_reserved =
    [EvLZ4 (drop 48 ex_reserved) (to_int32 (field ex_reserved 16 4))
           (to_int32 (field ex_reserved 20 4));
     EvError "v.tco" (MsgLayout (to_int32 (field ex_reserved 36 4)))] /\
  kind_of (MsgLayout (to_int32 (field ex_reserved 36 4))) = UnsupportedLayout.
Proof.
  apply (unsupported_layout_ends_the_file lz4_literal_run dx_unavailable tga_ok
           no_junk no_junk "v.tco" ex_reserved).
  - vm_compute. lia.
  - vm_compute. reflexivity.
  - vm_compute. reflexivity.
  - vm_compute. reflexivity.
  - left. vm_compute. reflexivity.
Defined.

Lemma written_name_witness :
  "./Textures_OUT/b.tco.tga"%string = ("./Textures_OUT/" +:+ "b.tco" +:+ ".tga")%string /\
  1 = to_int32 (field ex_rg16 28 4) /\
  2 = to_int32 (field ex_rg16 32 4) /\
  0 <= field ex_rg16 44 1 <= 1 /\
  false = (field ex_rg16 44 1 =? 0).
Proof.
  apply (written_name_size_and_orientation lz4_literal_run dx_unavailable tga_ok
           no_junk no_junk "b.tco" ex_rg16
           "./Textures_OUT/b.tco.tga" 1 2 2 [xff; x00; x7f; x01] false 1).
  fold (example "b.tco" ex_rg16). rewrite ex_rg16_events. repeat constructor.
Defined.

Lemma ex_failed_write_events :
  ProcessOneFile lz4_literal_run dx_unavailable tga_fails no_junk no_junk
    "a.tco" ex_rgba8_short =
  [EvLZ4 [x40; x0a; x0b; x0c; x0d] 5 4;
   EvWrite "./Textures_OUT/a.tco.tga" 2 2 4 [x0a; x0b; x0c; x0d] true 0;
   EvError "a.tco" MsgWrite].
Proof. vm_compute. reflexivity. Qed.

Lemma failed_write_witness :
  EvError "a.tco" MsgWrite ∈
    ProcessOneFile lz4_literal_run dx_unavailable tga_fails no_junk no_junk
      "a.tco" ex_rgba8_short /\
  written (ProcessOneFile lz4_literal_run dx_unavailable tga_fails no_junk no_junk
             "a.tco" ex_rgba8_short) = [].
Proof.
  apply (failed_write_is_logged lz4_literal_run dx_unavailable tga_fails
           no_junk no_junk "a.tco" ex_rgba8_short
           "./Textures_OUT/a.tco.tga" 2 2 4 [x0a; x0b; x0c; x0d] true).
  rewrite ex_failed_write_events. repeat constructor.
Defined.

Definition ex_bc1_header : TCOHeader := mkTCOHeader (mkBaseHeader 4) 1 1 0 1 0 [].

Lemma DecompressBC_witness :
  exists sf df pixels,
    bc_formats (layout ex_bc1_header) = Some (sf, df) /\
    dx_two_bytes [x0a] (width ex_bc1_header) (height ex_bc1_header)
                 (numMips ex_bc1_header) sf df = DxImage pixels /\
    [EvDirectX [x0a] 1 1 1 DXGI_FORMAT_BC1_TYPELESS DXGI_FORMAT_R8G8B8A8_UNORM] =
      [EvDirectX [x0a] (width ex_bc1_header) (height ex_bc1_header)
                 (numMips ex_bc1_header) sf df] /\
    let size := Z.to_nat (wrap32 (wrap32 (width ex_bc1_header * height ex_bc1_header) * 4)) in
    let n := Nat.min (length pixels) size in
    length [x01; x02; x00; x00] = size /\
    take n [x01; x02; x00; x00] = take n pixels /\
    drop n [x01; x02; x00; x00] = drop n (new_array no_junk (Z.of_nat size)).
Proof.
  apply (DecompressBC_copies_the_decoded_image dx_two_bytes no_junk
           "w.tco" [x0a] ex_bc1_header [x01; x02; x00; x00] 4
           [EvDirectX [x0a] 1 1 1 DXGI_FORMAT_BC1_TYPELESS DXGI_FORMAT_R8G8B8A8_UNORM]).
  vm_compute. reflexivity.
Defined.

Lemma block_decode_failure_witness :
  exists m,
    example "x.tco" ex_bc1 =
      [EvLZ4 (drop 48 ex_bc1) (to_int32 (compressedSize (comp_header ex_bc1)))
             (to_int32 (decompressedSize (comp_header ex_bc1)));
       EvDirectX (decompressed lz4_literal_run no_junk ex_bc1)
                 (width (tco_header ex_bc1)) (height (tco_header ex_bc1))
                 (numMips (tco_header ex_bc1))
                 DXGI_FORMAT_BC1_TYPELESS DXGI_FORMAT_R8G8B8A8_UNORM;
       EvError "x.tco" m] /\
    kind_of m = DecodeFailure /\
    written (example "x.tco" ex_bc1) = [].
Proof.
  apply (block_decode_failure_ends_the_file lz4_literal_run dx_unavailable tga_ok
           no_junk no_junk "x.tco" ex_bc1).
  - vm_compute. lia.
  - vm_compute. reflexivity.
  - vm_compute. reflexivity.
  - vm_compute. reflexivity.
  - vm_compute. reflexivity.
  - intros pixels. discriminate.
Defined.
